(** * Barbican / outpost build orchestration: a shallow embedding

    The development follows the Python sources module by module:
    - [TaskMeta]     : [pyledger/outpost/relocation/task_meta.py]
    - [Pathlib]      : the [pathlib] operations the synthesizer relies on
    - [Dyndep]       : [pyledger/outpost/_internals/meson_package_dyndep.py]
    - [NinjaBackend] : [pyledger/outpost/buildsys/ninja_backend.py] together
                       with [pyledger/outpost/package/package.py]

    Python integers are unbounded and are embedded as [Z]; the 4-byte
    [unsigned int] fields of the cstruct records are stores that reject a
    value outside [0, 2^32).  Python exceptions are values of [exn] carried
    by the [result] monad. *)

From Stdlib Require Import ZArith Lia Bool String Ascii List Sorted.
From stdpp Require Import base option list strings gmap sets.

(** ** Exceptions and the error monad *)

Inductive exn : Type :=
  | StructError                      (* struct.error: value does not fit the field *)
  | KeyError (key : string)          (* missing dict key *)
  | ProgramNotFound (prog : string)  (* find_program found nothing *)
  | FileNotFoundError (path : string)
  | CalledProcessError (returncode : Z)
  | TypeError
  | JSONDecodeError.

Inductive result (A : Type) : Type :=
  | Ok (a : A)
  | Raise (e : exn).
Arguments Ok {A} a.
Arguments Raise {A} e.

#[global] Instance result_ret : MRet result := @Ok.
#[global] Instance result_bind : MBind result := λ A B k m,
  match m with
  | Ok a => k a
  | Raise e => Raise e
  end.

(** Stateful code: the state is threaded through and survives a raise. *)
Definition prog (S A : Type) : Type := S → S * result A.

#[global] Instance prog_ret {S} : MRet (prog S) := λ A a st, (st, Ok a).
#[global] Instance prog_bind {S} : MBind (prog S) := λ A B k m st,
  match m st with
  | (st', Ok a) => k a st'
  | (st', Raise e) => (st', Raise e)
  end.

Definition lift {S A : Type} (r : result A) : prog S A := λ st, (st, r).

(** [for x in l: body(x)] *)
Fixpoint for_each {S A : Type} (l : list A) (body : A → prog S unit)
    : prog S unit :=
  match l with
  | [] => mret tt
  | x :: l' => body x ≫= λ _, for_each l' body
  end.

(** ** task_meta.py *)

Module TaskMeta.
Local Open Scope Z_scope.

(** [unsigned int raw;] with an explicit little-endian byte order: assigning
    to the field packs the value on 4 bytes and raises [struct.error] when it
    is out of range. *)
Definition store_raw (v : Z) : result Z :=
  if (0 <=? v) && (v <=? 0xffffffff) then Ok v else Raise StructError.

(** *** class JobFlags *)

Definition JOB_FLAG_START_NOAUTO : Z := 0.
Definition JOB_FLAG_START_AUTO : Z := 1.

Definition JOB_FLAG_EXIT_NORESTART : Z := 0.
Definition JOB_FLAG_EXIT_RESTART : Z := 1.
Definition JOB_FLAG_EXIT_PANIC : Z := 2.
Definition JOB_FLAG_EXIT_PERIODICRESTART : Z := 3.
Definition JOB_FLAG_EXIT_RESET : Z := 4.

(** The five exit modes the record defines. *)
Definition defined_exit_modes : list Z :=
  [JOB_FLAG_EXIT_NORESTART; JOB_FLAG_EXIT_RESTART; JOB_FLAG_EXIT_PANIC;
   JOB_FLAG_EXIT_PERIODICRESTART; JOB_FLAG_EXIT_RESET].

(** [autostart_mode] getter: [self.raw & 0x1 == JOB_FLAG_START_AUTO]. *)
Definition autostart_mode (raw : Z) : bool :=
  Z.land raw 0x1 =? JOB_FLAG_START_AUTO.

(** [autostart_mode] setter. *)
Definition set_autostart_mode (raw : Z) (auto : bool) : result Z :=
  raw ← store_raw (Z.land raw 0xfffffffe);
  let start_mode :=
    if auto then JOB_FLAG_START_AUTO else JOB_FLAG_START_NOAUTO in
  store_raw (Z.lor raw (Z.land start_mode 0x1)).

(** [exit_mode] getter: [(self.raw >> 1) & 0x7]. *)
Definition exit_mode (raw : Z) : Z :=
  Z.land (Z.shiftr raw 1) 0x7.

(** The [_exit_mode] dictionary of the setter. *)
Definition _exit_mode : list (string * Z) :=
  [("norestart", JOB_FLAG_EXIT_NORESTART);
   ("restart", JOB_FLAG_EXIT_RESTART);
   ("panic", JOB_FLAG_EXIT_PANIC);
   ("periodic", JOB_FLAG_EXIT_PERIODICRESTART);
   ("reset", JOB_FLAG_EXIT_RESET)]%string.

Fixpoint dict_get (d : list (string * Z)) (key : string) : result Z :=
  match d with
  | [] => Raise (KeyError key)
  | (k, v) :: d' => if String.eqb k key then Ok v else dict_get d' key
  end.

(** [exit_mode] setter. *)
Definition set_exit_mode (raw : Z) (mode : string) : result Z :=
  mode ← dict_get _exit_mode mode;
  raw ← store_raw (Z.land raw 0xfffffff1);
  store_raw (Z.lor raw (Z.shiftl (Z.land mode 0x7) 1)).

(** Reading a job-flags field back: both getters, neither of which raises. *)
Definition read_job_flags (raw : Z) : result (bool * Z) :=
  Ok (autostart_mode raw, exit_mode raw).

(** *** class TaskHandle *)

Definition _id_shift : Z := 13.
Definition _id_mask : Z := Z.shiftl 0x0000ffff _id_shift.

(** [id] getter: [(self.raw & self._id_mask) >> self._id_shift]. *)
Definition id (raw : Z) : Z :=
  Z.shiftr (Z.land raw _id_mask) _id_shift.

(** [id] setter. *)
Definition set_id (raw : Z) (id : Z) : result Z :=
  raw ← store_raw (Z.land raw (Z.lnot _id_mask));
  store_raw (Z.lor raw (Z.land (Z.shiftl id _id_shift) _id_mask)).

(** *** Vocabulary of the properties *)

(** A 32-bit field value. *)
Definition u32 (v : Z) : Prop := 0 <= v < 2 ^ 32.

(** The value the [id] setter leaves in the field. *)
Definition id_written (raw new_id : Z) : Z :=
  Z.lor (Z.land raw (Z.lnot _id_mask)) (Z.land (Z.shiftl new_id _id_shift) _id_mask).

(** The values the [exit_mode] and [autostart_mode] setters leave. *)
Definition exit_written (raw ordinal : Z) : Z :=
  Z.lor (Z.land raw 0xfffffff1) (Z.shiftl (Z.land ordinal 0x7) 1).

Definition autostart_written (raw : Z) (auto : bool) : Z :=
  Z.lor (Z.land raw 0xfffffffe)
        (Z.land (if auto then JOB_FLAG_START_AUTO else JOB_FLAG_START_NOAUTO) 0x1).

End TaskMeta.

(** ** pathlib: the pure POSIX path operations used by the sources *)

Module Pathlib.
Local Open Scope string_scope.

(** A [PurePosixPath]: its root (empty, one separator or two) and the
    components below the root.  Two paths are equal, and hash alike, when
    root and components agree. *)
Record Path : Type := mkPath { root : string; parts : list string }.

#[global] Instance Path_eq_dec : EqDecision Path.
Proof. solve_decision. Defined.

#[global] Instance Path_countable : Countable Path :=
  inj_countable' (λ p, (root p, parts p)) (λ rp, mkPath rp.1 rp.2)
                 (λ p, match p with mkPath _ _ => eq_refl end).

Definition sep : ascii := "/"%char.

(** [s.split(sep)] *)
Fixpoint split (s : string) : list string :=
  match s with
  | EmptyString => [EmptyString]
  | String c s' =>
      if Ascii.eqb c sep then EmptyString :: split s'
      else match split s' with
           | x :: xs => String c x :: xs
           | [] => [String c EmptyString]
           end
  end.

(** [s.lstrip(sep)] *)
Fixpoint lstrip (s : string) : string :=
  match s with
  | String c s' => if Ascii.eqb c sep then lstrip s' else s
  | EmptyString => EmptyString
  end.

(** [splitroot]: exactly two leading separators are kept as a root of their
    own, any other number collapses to one. *)
Definition splitroot (part : string) : string * string :=
  match part with
  | String c _ =>
      if Ascii.eqb c sep then
        let stripped_part := lstrip part in
        if Nat.eqb (String.length part - String.length stripped_part) 2
        then ("//", stripped_part)
        else ("/", stripped_part)
      else (EmptyString, part)
  | EmptyString => (EmptyString, part)
  end.

(** [parse_parts] on one string: empty and ["."] components are dropped. *)
Definition parse (part : string) : Path :=
  let '(root, rel) := splitroot part in
  mkPath root (filter (λ x, x ≠ EmptyString ∧ x ≠ ".") (split rel)).

(** [self / key]: an anchored right operand replaces the left one. *)
Definition truediv (self : Path) (key : string) : Path :=
  let p := parse key in
  if decide (root p = EmptyString)
  then mkPath (root self) (parts self ++ parts p)%list
  else p.

(** [str(path)] *)
Definition str (p : Path) : string :=
  if decide (root p = EmptyString) then
    match parts p with
    | [] => "."
    | _ => String.concat "/" (parts p)
    end
  else root p ++ String.concat "/" (parts p).

End Pathlib.

(** ** meson_package_dyndep.py *)

Module Dyndep.
Import Pathlib.
Local Open Scope string_scope.

(** *** The introspection snapshot

    [buildsystem_files], [targets] and [installed] are read unconditionally;
    [target_sources], [sources] and [generated_sources] are looked up with
    [in] and may be absent. *)
Record TargetSources : Type := {
  sources : option (list string);
  generated_sources : option (list string);
}.

Record Target : Type := {
  target_sources : option (list TargetSources);
}.

Record Introspection : Type := {
  buildsystem_files : list string;
  targets : list Target;
  installed : gmap string string;
}.

(** [f[1:]] *)
Definition slice_from_1 (f : string) : string :=
  match f with
  | EmptyString => EmptyString
  | String _ rest => rest
  end.

(** The two nested loops filling [package_sources]. *)
Definition extend_target_sources (package_sources : list string)
    (target_sources : TargetSources) : list string :=
  let package_sources :=
    match sources target_sources with
    | Some l => (package_sources ++ l)%list
    | None => package_sources
    end in
  match generated_sources target_sources with
  | Some l => (package_sources ++ l)%list
  | None => package_sources
  end.

Definition extend_target (package_sources : list string) (target : Target)
    : list string :=
  match target_sources target with
  | Some l => foldl extend_target_sources package_sources l
  | None => package_sources
  end.

Definition package_sources (introspect : Introspection) : list string :=
  foldl extend_target [] (targets introspect).

(** The four file sets computed by [_gen_ninja_dyndep_file] before the
    output file is opened.  [install_implicit_inputs] is the very set bound
    to [compile_implicit_outputs]. *)
Record DyndepSets : Type := {
  compile_implicit_inputs : gset string;
  compile_implicit_outputs : gset string;
  install_implicit_inputs : gset string;
  install_implicit_outputs : gset Path;
}.

Definition dyndep_sets (introspect : Introspection) (stagingdir : Path)
    : DyndepSets :=
  let package_buildsys_files := buildsystem_files introspect in
  let package_sources := package_sources introspect in
  let installed := map_to_list (installed introspect) in
  (* set(installed.keys()) *)
  let compile_implicit_outputs : gset string := list_to_set (installed.*1) in
  (* set(package_buildsys_files + package_sources) *)
  let compile_implicit_inputs : gset string :=
    list_to_set (package_buildsys_files ++ package_sources)%list in
  (* compile_implicit_inputs.difference_update(compile_implicit_outputs) *)
  let compile_implicit_inputs :=
    compile_implicit_inputs ∖ compile_implicit_outputs in
  let install_implicit_inputs := compile_implicit_outputs in
  (* set([stagingdir / f[1:] for f in installed.values()]) *)
  let install_implicit_outputs : gset Path :=
    list_to_set ((λ f, truediv stagingdir (slice_from_1 f)) <$> installed.*2) in
  {| compile_implicit_inputs := compile_implicit_inputs;
     compile_implicit_outputs := compile_implicit_outputs;
     install_implicit_inputs := install_implicit_inputs;
     install_implicit_outputs := install_implicit_outputs |}.

(** *** Files and the IO monad

    The file system maps a path (as a string) to the content of the file.
    A computation threads the file system and may raise. *)
Abbreviation io := (prog (gmap string string)).

(** [path.open("w")]: the file is created or truncated; the handle is the
    key of the file. *)
Definition open_w (path : Path) : io string :=
  λ fs, (<[str path := EmptyString]> fs, Ok (str path)).

(** [out.write(s)] *)
Definition write (out : string) (s : string) : io unit :=
  λ fs, (alter (λ content, content ++ s) out fs, Ok tt).

(** *** Iterating a Python set

    A [set] is iterated in the order of its hash table, which the program
    does not control (string hashes are salted per process).  The order is a
    parameter: any enumeration of the elements, each once. *)
Record SetIter (A : Type) `{Countable A} : Type := {
  iter : gset A → list A;
  iter_perm : ∀ X, iter X ≡ₚ elements X;
}.
Arguments iter {A _ _} _ _.
Arguments iter_perm {A _ _} _ _.

Record SetOrder : Type := {
  order_str : SetIter string;
  order_path : SetIter Path;
}.

(** [f"{x}"] *)
Class Format (A : Type) : Type := format : A → string.
#[global] Instance format_string : Format string := λ s, s.
#[global] Instance format_path : Format Path := str.

Definition nl : string := String (ascii_of_nat 10) EmptyString.

Section Writer.
Context {B : Type} `{Countable B} `{Format B}.
Variable order_in : SetIter string.
Variable order_out : SetIter B.

(** [_add_build_target_dyndep]; [if implicit_output:] tests emptiness. *)
Definition _add_build_target_dyndep (target : string)
    (implicit_inputs : gset string) (implicit_output : gset B)
    (out : string) : io unit :=
  write out ("build " ++ target);;
  (if decide (implicit_output = ∅) then mret tt else write out " |");;
  for_each (iter order_out implicit_output)
           (λ f, write out (" $" ++ nl ++ " " ++ format f));;
  write out ": dyndep";;
  (if decide (implicit_inputs = ∅) then mret tt else write out " |");;
  for_each (iter order_in implicit_inputs)
           (λ f, write out (" $" ++ nl ++ " " ++ format f));;
  write out nl;;
  write out ("  restat = 1" ++ nl).

End Writer.

(** [_gen_ninja_dyndep_file] *)
Definition _gen_ninja_dyndep_file (order : SetOrder) (package : string)
    (introspect : Introspection) (stagingdir : Path) (output : Path)
    : io unit :=
  let compile_target := package ++ "_compile.stamp" in
  let install_target := package ++ "_install.stamp" in
  let sets := dyndep_sets introspect stagingdir in
  dyndep ← open_w output;
  write dyndep ("ninja_dyndep_version = 1" ++ nl);;
  _add_build_target_dyndep (order_str order) (order_str order) compile_target
    (compile_implicit_inputs sets) (compile_implicit_outputs sets) dyndep;;
  _add_build_target_dyndep (order_str order) (order_path order) install_target
    (install_implicit_inputs sets) (install_implicit_outputs sets) dyndep.

(** *** The collaborators of [run_meson_package_dyndep]

    [find_program], the file-system lookup behind [Path.resolve], the meson
    subprocess and the JSON parser are outside the program; each is a
    function of the world the command runs in.  [subprocess_run] gives the
    return code and the captured standard output; [json_loads] gives the
    payload as the snapshot the generator reads. *)
Record World : Type := {
  find_program : string → result string;
  resolve_strict : Path → result Path;
  subprocess_run : list string → Z * string;
  json_loads : string → result Introspection;
  set_order : SetOrder;
}.

(** [subprocess.run(cmdline, check=True, capture_output=True)] *)
Definition subprocess_run_check (w : World) (cmdline : list string)
    : result string :=
  let '(returncode, stdout) := subprocess_run w cmdline in
  if decide (returncode = 0%Z) then Ok stdout
  else Raise (CalledProcessError returncode).

(** [run_meson_package_dyndep] *)
Definition run_meson_package_dyndep (w : World) (name : string)
    (builddir stagingdir dyndep outfile : Path) : io unit :=
  meson ← lift (find_program w "meson");
  builddir ← lift (resolve_strict w builddir);
  let cmdline := [meson; "introspect"; "--all"; "-i"; str builddir] in
  stdout ← lift (subprocess_run_check w cmdline);
  package_introspection ← lift (json_loads w stdout);
  _gen_ninja_dyndep_file (set_order w) name package_introspection stagingdir dyndep.

(** *** Vocabulary of the properties *)

(** [x] is listed under [sources] or [generated_sources] of a source group,
    of a source group of a target, of some target of the snapshot. *)
Definition in_group (group : TargetSources) (x : string) : Prop :=
  ∃ files, (sources group = Some files ∨ generated_sources group = Some files)
           ∧ x ∈ files.

Definition in_target (target : Target) (x : string) : Prop :=
  ∃ groups group, target_sources target = Some groups
                  ∧ group ∈ groups ∧ in_group group x.

Definition is_source (introspect : Introspection) (x : string) : Prop :=
  ∃ target groups group files,
    target ∈ targets introspect
    ∧ target_sources target = Some groups
    ∧ group ∈ groups
    ∧ (sources group = Some files ∨ generated_sources group = Some files)
    ∧ x ∈ files.

(** A destination that begins with the path separator, and the destination
    without that separator. *)
Definition starts_with_sep (dest : string) : Prop :=
  ∃ rest, dest = String sep rest.

Definition strip_leading_sep (dest : string) : string :=
  match dest with
  | String c rest => if Ascii.eqb c sep then rest else dest
  | EmptyString => dest
  end.

(** One block of the declaration, from the files in the order they are
    written. *)
Definition render_files (files : list string) : string :=
  (match files with [] => EmptyString | _ => " |" end)
  ++ String.concat EmptyString ((λ f, " $" ++ nl ++ " " ++ f) <$> files).

Definition render_block (target : string) (ins outs : list string) : string :=
  "build " ++ target ++ render_files outs ++ ": dyndep" ++ render_files ins
  ++ nl ++ "  restat = 1" ++ nl.


(** Two runs: one that walks a set in the order of [elements], one that
    walks it backwards. *)
Definition elements_order : SetOrder :=
  {| order_str := {| iter := elements; iter_perm := λ X, reflexivity _ |};
     order_path := {| iter := elements; iter_perm := λ X, reflexivity _ |} |}.


(** Snapshots: build-system files A and B, one target with source C, and C
    installed to an absolute, respectively a relative, destination. *)
Definition snapshot_abs : Introspection :=
  {| buildsystem_files := ["A"; "B"];
     targets := [ {| target_sources :=
                       Some [ {| sources := Some ["C"];
                                 generated_sources := None |} ] |} ];
     installed := {[ "C" := "/usr/bin/C" ]} |}.

Definition snapshot_rel : Introspection :=
  {| buildsystem_files := ["A"; "B"];
     targets := [ {| target_sources :=
                       Some [ {| sources := Some ["C"];
                                 generated_sources := None |} ] |} ];
     installed := {[ "C" := "usr/bin/C" ]} |}.

(** A world where meson exits with status 1. *)
Definition failing_world : World :=
  {| find_program := λ prog, Ok ("/usr/bin/" ++ prog);
     resolve_strict := λ p, Ok p;
     subprocess_run := λ _, (1%Z, EmptyString);
     json_loads := λ _, Raise JSONDecodeError;
     set_order := elements_order |}.

(** A world where meson succeeds and its output parses to [snapshot_abs]. *)
Definition working_world : World :=
  {| find_program := λ prog, Ok ("/usr/bin/" ++ prog);
     resolve_strict := λ p, Ok p;
     subprocess_run := λ _, (0%Z, "introspection of pkg");
     json_loads := λ _, Ok snapshot_abs;
     set_order := elements_order |}.

End Dyndep.

(** ** package.py and ninja_backend.py *)

Module NinjaBackend.
Import Pathlib.
Local Open Scope string_scope.

(** Values found in a package configuration node and passed on as ninja
    variables. *)
#[local] Unset Elimination Schemes.
Inductive PyVal : Type :=
  | PNone
  | PStr (s : string)
  | PList (l : list PyVal).
#[local] Set Elimination Schemes.

(** [repr(v)]; quotes inside a string are not escaped here. *)
Fixpoint repr (v : PyVal) : string :=
  match v with
  | PNone => "None"
  | PStr s => "'" ++ s ++ "'"
  | PList l => "[" ++ String.concat ", " (map repr l) ++ "]"
  end.

(** [f"{v}"] *)
Definition format (v : PyVal) : string :=
  match v with
  | PStr s => s
  | _ => repr v
  end.

(** [for x in v]: a list yields its items, a string its characters. *)
Definition py_iter (v : PyVal) : result (list PyVal) :=
  match v with
  | PNone => Raise TypeError
  | PStr s => Ok ((λ c, PStr (String c EmptyString)) <$> list_ascii_of_string s)
  | PList l => Ok l
  end.

(** *** class Package (the attributes the backend reads) *)
Record Package : Type := {
  _name : string;
  _config : gmap string PyVal;
}.

Definition name (self : Package) : string := _name self.

(** [deps]: [self._config["deps"] if "deps" in self._config else list()] *)
Definition deps (self : Package) : PyVal :=
  match _config self !! "deps" with
  | Some v => v
  | None => PList []
  end.

(** [build_opts]; [self._config['config_file']] raises when the key is
    missing. *)
Definition build_opts (self : Package) : result PyVal :=
  config_file ← match _config self !! "config_file" with
                | Some v => Ok v
                | None => Raise (KeyError "config_file")
                end;
  let build_opts := [PStr ("-Dconfig=" ++ format config_file)] in
  let build_opts :=
    (build_opts ++ [match _config self !! "build_opts" with
                    | Some v => v
                    | None => PList []
                    end])%list in
  Ok (PList build_opts).

(** [__getattr__], reached for every attribute the class does not define
    ([build_dir], [src_dir], [staging_dir]). *)
Definition __getattr__ (self : Package) (attr : string) : PyVal :=
  match _config self !! attr with
  | Some v => v
  | None => PNone
  end.

(** *** ninja_syntax.Writer

    The generated file is the sequence of statements the writer wrote.  A
    build statement has its targets as lists ([None] is the empty list, a
    single string a one-element list) and the variables that were written
    under it, each with its text. *)
Record Build : Type := {
  outputs : list string;
  rule : string;
  inputs : list string;
  implicit : list string;
  order_only : list string;
  variables : list (string * PyVal);
  implicit_outputs : list string;
}.

Inductive Stmt : Type :=
  | Newline
  | BuildStmt (b : Build).

Abbreviation ninja := (prog (list Stmt)).

Definition newline : ninja unit := λ st, ((st ++ [Newline])%list, Ok tt).

(** [filter(None, value)] keeps the items that are true: not [None], not the
    empty string, not the empty list. *)
Definition truthy (v : PyVal) : bool :=
  match v with
  | PNone => false
  | PStr EmptyString => false
  | PList [] => false
  | _ => true
  end.

(** [' '.join(items)] raises [TypeError] on an item that is not a string. *)
Fixpoint join_items (items : list PyVal) : result (list string) :=
  match items with
  | [] => Ok []
  | PStr s :: items' =>
      match join_items items' with
      | Ok rest => Ok (s :: rest)
      | Raise e => Raise e
      end
  | _ :: _ => Raise TypeError
  end.

(** [Writer.variable]: nothing is written for [None]; a list is filtered
    and joined with spaces; the outcome is the text written, if any. *)
Definition variable_text (value : PyVal) : result (option string) :=
  match value with
  | PNone => Ok None
  | PStr s => Ok (Some s)
  | PList l =>
      match join_items (List.filter truthy l) with
      | Ok items => Ok (Some (String.concat " " items))
      | Raise e => Raise e
      end
  end.

(** The loop [for key, val in iterator: self.variable(key, val, indent=1)]:
    the variables written, in order, until one raises. *)
Fixpoint write_variables (variables : list (string * PyVal))
    : list (string * PyVal) * result unit :=
  match variables with
  | [] => ([], Ok tt)
  | (key, val) :: variables' =>
      match variable_text val with
      | Raise e => ([], Raise e)
      | Ok None => write_variables variables'
      | Ok (Some text) =>
          ((key, PStr text) :: (write_variables variables').1,
           (write_variables variables').2)
      end
  end.

(** [Writer.build]: the [build] line is written first, then the variables;
    a variable that raises leaves the line, and the variables written before
    it, in the file. *)
Definition build (b : Build) : ninja unit :=
  λ st,
    ((st ++ [BuildStmt {| outputs := outputs b;
                          rule := rule b;
                          inputs := inputs b;
                          implicit := implicit b;
                          order_only := order_only b;
                          variables := (write_variables (variables b)).1;
                          implicit_outputs := implicit_outputs b |}])%list,
     (write_variables (variables b)).2).

(** The target names [add_meson_package] builds with f-strings. *)
Definition install_stamp (name : string) : string := name ++ "_install.stamp".
Definition install_phony (name : string) : string := name ++ "_install".
Definition compile_stamp (name : string) : string := name ++ "_compile.stamp".
Definition compile_phony (name : string) : string := name ++ "_compile".
Definition setup_phony (name : string) : string := name ++ "_setup".
Definition dyndep_file (name : string) : string := name ++ ".dyndep".
Definition introspect_json (name : string) : string := name ++ "_introspect.json".

(** [add_meson_package] *)
Definition add_meson_package (package : Package) : ninja unit :=
  newline;;
  let build_ninja := format (__getattr__ package "build_dir") ++ "/build.ninja" in
  opts ← lift (build_opts package);
  deps ← lift (py_iter (deps package));
  build {| outputs := [build_ninja];
           rule := "meson_setup";
           inputs := [];
           implicit := [];
           order_only := (λ dep, install_stamp (format dep)) <$> deps;
           variables := [("builddir", __getattr__ package "build_dir");
                         ("sourcedir", __getattr__ package "src_dir");
                         ("name", PStr (name package));
                         ("opts", opts)];
           implicit_outputs := [] |};;
  newline;;
  build {| outputs := [setup_phony (name package)];
           rule := "phony";
           inputs := [build_ninja];
           implicit := []; order_only := []; variables := [];
           implicit_outputs := [] |};;
  newline;;
  build {| outputs := [dyndep_file (name package)];
           rule := "meson_package_dyndep";
           inputs := [];
           implicit := [];
           order_only := [setup_phony (name package)];
           variables := [("name", PStr (name package));
                         ("builddir", __getattr__ package "build_dir");
                         ("stagingdir", __getattr__ package "staging_dir");
                         ("json", PStr (introspect_json (name package)))];
           implicit_outputs := [introspect_json (name package)] |};;
  newline;;
  build {| outputs := [compile_stamp (name package)];
           rule := "meson_compile";
           inputs := [];
           implicit := [];
           order_only := [dyndep_file (name package)];
           variables := [("builddir", __getattr__ package "build_dir");
                         ("name", PStr (name package));
                         ("dyndep", PStr (dyndep_file (name package)))];
           implicit_outputs := [] |};;
  newline;;
  build {| outputs := [compile_phony (name package)];
           rule := "phony";
           inputs := [compile_stamp (name package)];
           implicit := []; order_only := []; variables := [];
           implicit_outputs := [] |};;
  newline;;
  build {| outputs := [install_stamp (name package)];
           rule := "meson_install";
           inputs := [];
           implicit := [];
           order_only := [dyndep_file (name package)];
           variables := [("builddir", __getattr__ package "build_dir");
                         ("name", PStr (name package));
                         ("stagingdir", __getattr__ package "staging_dir");
                         ("dyndep", PStr (dyndep_file (name package)))];
           implicit_outputs := [] |};;
  newline;;
  build {| outputs := [install_phony (name package)];
           rule := "phony";
           inputs := [install_stamp (name package)];
           implicit := []; order_only := []; variables := [];
           implicit_outputs := [] |};;
  newline.

Section LinkerScript.
(** [Path.resolve()] depends on the file system the generator runs on. *)
Variable resolve : Path → Path.

(** [package_name if package_name else name]: [None] and the empty string
    are both false. *)
Definition package_name_or (package_name : option string) (name : string)
    : string :=
  match package_name with
  | Some (String c s) => String c s
  | Some EmptyString | None => name
  end.

(** [add_gen_ldscript_target] *)
Definition add_gen_ldscript_target (name : string)
    (output template layout : Path) (package_name : option string)
    : ninja unit :=
  let implicit_inputs := ["libshield_install.stamp"] in
  let implicit_inputs :=
    if decide (name ≠ "dummy")
    then (implicit_inputs ++ [install_stamp (package_name_or package_name name)])%list
    else implicit_inputs in
  newline;;
  build {| outputs := [str (resolve output)];
           rule := "internal";
           inputs := [str (resolve layout)];
           implicit := implicit_inputs;
           order_only := [];
           variables :=
             [("cmd", PStr "gen_ldscript");
              ("args", PStr ("--name " ++ name ++ " " ++ str template ++ " "
                             ++ str layout ++ " " ++ str output));
              ("description", PStr ("generating " ++ name ++ " linker script"))];
           implicit_outputs := [] |}.

End LinkerScript.

(** The build statements of a generated file, and those of a given rule. *)
Definition builds (st : list Stmt) : list Build :=
  omap (λ s, match s with BuildStmt b => Some b | Newline => None end) st.

Definition builds_of_rule (r : string) (st : list Stmt) : list Build :=
  filter (λ b, rule b = r) (builds st).

(** A value for which [Writer.variable] does not raise, and a package for
    whose four non-constant variables it does not raise. *)
Definition writable (v : PyVal) : Prop := ∃ text, variable_text v = Ok text.

Definition package_writable (package : Package) : Prop :=
  writable (__getattr__ package "build_dir")
  ∧ writable (__getattr__ package "src_dir")
  ∧ writable (__getattr__ package "staging_dir")
  ∧ match build_opts package with
    | Ok opts => writable opts
    | Raise _ => True
    end.

#[global] Instance writable_dec (v : PyVal) : Decision (writable v).
Proof.
  unfold writable. destruct (variable_text v) as [text|e].
  - left. by exists text.
  - right. intros [text Htext]. discriminate Htext.
Defined.

#[global] Instance package_writable_dec (package : Package)
    : Decision (package_writable package).
Proof. unfold package_writable. destruct (build_opts package); apply _. Defined.

(** Two packages: [libshield], and [app] which declares it as its only
    dependency. *)
Definition libshield : Package :=
  {| _name := "libshield";
     _config := {[ "config_file" := PStr "configs/shield.config" ]} |}.

Definition app : Package :=
  {| _name := "app";
     _config := <[ "deps" := PList [PStr "libshield"] ]>
                  {[ "config_file" := PStr "configs/app.config" ]} |}.

End NinjaBackend.

(** ** ninja_backend.py: the other edges *)

Module NinjaTargets.
Import Pathlib NinjaBackend.
Local Open Scope string_scope.

(** What [add_outpost_targets] reads of a project: [project.path]. *)
Record ProjectPath : Type := {
  config_full_path : Path;
  save_full_path : Path;
  project_dir : Path;
}.

(** [add_outpost_targets]; path-valued variables are recorded as their
    [str]. *)
Definition add_outpost_targets (project : ProjectPath) : ninja unit :=
  newline;;
  let project_implicit_deps :=
    [str (config_full_path project); str (save_full_path project)] in
  build {| outputs := project_implicit_deps; rule := "phony";
           inputs := []; implicit := []; order_only := []; variables := [];
           implicit_outputs := [] |};;
  build {| outputs := ["build.ninja"]; rule := "outpost_reconfigure";
           inputs := [];
           implicit := project_implicit_deps;
           order_only := [];
           variables := [("projectdir", PStr (str (project_dir project)))];
           implicit_outputs := [] |}.

Section Targets.
(** [Path.resolve()] and [Path.stem] *)
Variable resolve : Path → Path.
Variable stem : Path → string.

(** [add_internal_gen_memory_layout_target]; the writer's [build] returns
    the list of outputs. *)
Definition add_internal_gen_memory_layout_target (output : Path)
    (dependencies : list Package) (sys_exelist app_exelist : list Path)
    : ninja (list string) :=
  newline;;
  let exelist_opt :=
    String.concat " -l "
      ((λ exe, str (resolve exe)) <$> (sys_exelist ++ app_exelist)%list) in
  let implicit := (λ package, install_stamp (name package)) <$> dependencies in
  let implicit :=
    (implicit ++ ((λ exe, str (resolve exe)) <$> app_exelist))%list in
  build {| outputs := [str output]; rule := "internal";
           inputs := [];
           implicit := implicit;
           order_only := [];
           variables :=
             [("cmd", PStr "gen_memory_layout");
              ("args", PStr (str output ++ " " ++ exelist_opt));
              ("description", PStr "generating firmware memory layout")];
           implicit_outputs := [] |};;
  mret [str output].

(** [add_internal_gen_dummy_memory_layout_target] *)
Definition add_internal_gen_dummy_memory_layout_target (output : Path)
    : ninja (list string) :=
  newline;;
  build {| outputs := [str output]; rule := "internal";
           inputs := []; implicit := []; order_only := [];
           variables :=
             [("cmd", PStr "gen_memory_layout");
              ("args", PStr ("--dummy " ++ str (resolve output)));
              ("description", PStr "generating dummy memory layout")];
           implicit_outputs := [] |};;
  mret [str output].

(** [add_relink_meson_target] *)
Definition add_relink_meson_target (name : string)
    (orig_elf output linkerscript : Path) (package_name : option string)
    : ninja unit :=
  let elf_in := str (resolve orig_elf) in
  let elf_out := str (resolve output) in
  let lnk := str (resolve linkerscript) in
  let introspect := introspect_json (package_name_or package_name name) in
  newline;;
  build {| outputs := [elf_out]; rule := "internal";
           inputs := [lnk; introspect];
           implicit := [install_stamp name];
           order_only := [];
           variables :=
             [("cmd", PStr "relink_elf");
              ("args", PStr ("-l " ++ lnk ++ " -m " ++ introspect ++ " "
                             ++ elf_out ++ " " ++ elf_in));
              ("description", PStr (name ++ ": linking " ++ elf_out))];
           implicit_outputs := [] |}.

(** [add_objcopy_rule]; [if deps:] tests emptiness. *)
Definition add_objcopy_rule (input output : Path) (format : string)
    (deps : list string) (package_name : string) : ninja unit :=
  newline;;
  let introspect := introspect_json package_name in
  let implicit_deps := [introspect] in
  let implicit_deps :=
    match deps with
    | [] => implicit_deps
    | _ => (implicit_deps ++ deps)%list
    end in
  build {| outputs := [str output]; rule := "internal";
           inputs := [str input];
           implicit := implicit_deps;
           order_only := [];
           variables :=
             [("cmd", PStr "objcopy");
              ("args", PStr ("-f " ++ format ++ " -m " ++ introspect ++ " "
                             ++ str output ++ " " ++ str input));
              ("description", PStr ("objcopy " ++ str input ++ " to "
                                    ++ str output))];
           implicit_outputs := [] |}.

(** [add_gen_metadata_rule] *)
Definition add_gen_metadata_rule (input output projectdir : Path)
    : ninja unit :=
  newline;;
  build {| outputs := [str output]; rule := "internal";
           inputs := [str input];
           implicit := []; order_only := [];
           variables :=
             [("cmd", PStr "gen_task_metadata_bin");
              ("args", PStr (str output ++ " " ++ str input ++ " "
                             ++ str projectdir));
              ("description", PStr ("generate task " ++ stem input
                                    ++ " metadata"))];
           implicit_outputs := [] |}.

(** [add_srec_cat_rule] *)
Definition add_srec_cat_rule (kernel idle : Path) (apps : list Path)
    (output : Path) : ninja unit :=
  let deps := [str kernel] in
  let deps := (deps ++ (str <$> apps))%list in
  newline;;
  build {| outputs := [str output]; rule := "internal";
           inputs := deps;
           implicit := []; order_only := [];
           variables :=
             [("cmd", PStr "srec_cat");
              ("args", PStr (("--format ihex " ++ str output ++ " ")
                             ++ String.concat " " deps ++ (" " ++ str idle)));
              ("description", PStr ("generating " ++ str output
                                    ++ " with srec_cat"))];
           implicit_outputs := [] |}.

(** [add_fixup_kernel_rule] *)
Definition add_fixup_kernel_rule (input output : Path) (metadata : list Path)
    : ninja unit :=
  let metadata_str := str <$> metadata in
  newline;;
  build {| outputs := [str output]; rule := "internal";
           inputs := metadata_str;
           implicit := []; order_only := [];
           variables :=
             [("cmd", PStr "kernel_fixup");
              ("args", PStr (str output ++ " " ++ str input ++ " "
                             ++ String.concat " " metadata_str));
              ("description", PStr "kernel task metadata fixup")];
           implicit_outputs := [] |}.

(** One call of an edge-emitting method, and a generation run as a sequence
    of such calls. *)
Inductive Call : Type :=
  | CallOutpostTargets (project : ProjectPath)
  | CallMemoryLayout (output : Path) (dependencies : list Package)
      (sys_exelist app_exelist : list Path)
  | CallDummyMemoryLayout (output : Path)
  | CallLdscript (name : string) (output template layout : Path)
      (package_name : option string)
  | CallRelink (name : string) (orig_elf output linkerscript : Path)
      (package_name : option string)
  | CallObjcopy (input output : Path) (format : string) (deps : list string)
      (package_name : string)
  | CallMetadata (input output projectdir : Path)
  | CallSrecCat (kernel idle : Path) (apps : list Path) (output : Path)
  | CallFixupKernel (input output : Path) (metadata : list Path)
  | CallMesonPackage (package : Package).

Definition call (c : Call) : ninja unit :=
  match c with
  | CallOutpostTargets project => add_outpost_targets project
  | CallMemoryLayout output dependencies sys_exelist app_exelist =>
      add_internal_gen_memory_layout_target output dependencies
        sys_exelist app_exelist;; mret tt
  | CallDummyMemoryLayout output =>
      add_internal_gen_dummy_memory_layout_target output;; mret tt
  | CallLdscript name output template layout package_name =>
      add_gen_ldscript_target resolve name output template layout package_name
  | CallRelink name orig_elf output linkerscript package_name =>
      add_relink_meson_target name orig_elf output linkerscript package_name
  | CallObjcopy input output format deps package_name =>
      add_objcopy_rule input output format deps package_name
  | CallMetadata input output projectdir =>
      add_gen_metadata_rule input output projectdir
  | CallSrecCat kernel idle apps output =>
      add_srec_cat_rule kernel idle apps output
  | CallFixupKernel input output metadata =>
      add_fixup_kernel_rule input output metadata
  | CallMesonPackage package => add_meson_package package
  end.

End Targets.

(** The targets a build statement waits for, and the targets a file
    defines. *)
Definition references (b : Build) : list string :=
  (inputs b ++ implicit b ++ order_only b)%list.

Definition defined (st : list Stmt) : list string :=
  b ← builds st; (outputs b ++ implicit_outputs b)%list.

(** The name-derived targets of a package. *)
Definition package_targets (name : string) : list string :=
  [setup_phony name; dyndep_file name; compile_stamp name;
   compile_phony name; install_stamp name; install_phony name].

End NinjaTargets.

(** ** ninja_backend.py: the rule table *)

Module NinjaRules.
Local Open Scope string_scope.

(** A [rule] call of the writer, and the calls the rule-emitting methods
    make (they emit no edge). *)
Record RuleDecl : Type := {
  rule_name : string;
  command : string;
  description : string;
  generator : bool;
  pool : string;
}.

Inductive Decl : Type :=
  | DNewline
  | DComment (text : string)
  | DVariable (key value : string)
  | DRule (r : RuleDecl).

Abbreviation rules := (prog (list Decl)).

Definition emit (d : Decl) : rules unit := λ st, ((st ++ [d])%list, Ok tt).

Section Rules.
(** [..utils.environment.find_program] *)
Variable find_program : string → result string.

(** [add_outpost_rules] *)
Definition add_outpost_rules : rules unit :=
  emit DNewline;;
  emit (DComment "outpost executable");;
  outpost ← lift (find_program "outpost");
  emit (DVariable "outpost" outpost);;
  emit DNewline;;
  emit (DComment "outpost reconfiguration rule");;
  emit (DRule {| rule_name := "outpost_reconfigure";
                 description := "outpost project reconfiguration";
                 generator := true;
                 command := "$outpost setup $projectdir";
                 pool := "console" |}).

(** [_add_outpost_internal_rule] *)
Definition _add_outpost_internal_rule (name args : string) : rules unit :=
  emit DNewline;;
  emit (DRule {| rule_name := name;
                 description := "outpost internal " ++ name ++ " command";
                 generator := false;
                 command := "$outpost --internal " ++ name ++ " " ++ args;
                 pool := "console" |}).

(** The [internal_commands] dictionary, in insertion order. *)
Definition internal_commands : list (string * string) :=
  [("capture_out", "$out $cmdline");
   ("gen_ldscript", "--name=$name $template $in $out");
   ("gen_memory_layout", "--prefix=$prefix $out $projectdir");
   ("gen_task_metadata_bin", "$out $in $projectdir");
   ("kernel_fixup", "$out $in");
   ("meson_package_dyndep", "--name=$name -j $json $builddir $stagingdir $out");
   ("objcopy", "$out $in --format=$format $extra_option");
   ("relink_elf", "$out $in --linkerscript=$lnk $options");
   ("srec_cat", "--format=$format $out $in")].

(** [add_outpost_internals_rules] *)
Definition add_outpost_internals_rules : rules unit :=
  for_each internal_commands
    (λ item, _add_outpost_internal_rule item.1 item.2);;
  emit DNewline;;
  emit (DRule {| rule_name := "internal";
                 description := "outpost internal command";
                 generator := false;
                 command := "$outpost --internal $cmd $args";
                 pool := "console" |}).

(** [add_meson_rules] *)
Definition add_meson_rules : rules unit :=
  emit DNewline;;
  mesonbuild ← lift (find_program "meson");
  emit (DVariable "mesonbuild" mesonbuild);;
  emit DNewline;;
  emit (DRule {| rule_name := "meson_setup";
                 description := "meson setup $name";
                 generator := false;
                 command := "$mesonbuild setup -Ddts=$dts -Ddts-include-dirs=$dtsincdir "
                            ++ "--cross-file=$crossfile $opts $builddir $sourcedir";
                 pool := "console" |});;
  emit DNewline;;
  emit (DRule {| rule_name := "meson_compile";
                 description := "meson compile $name";
                 generator := false;
                 command := "$mesonbuild compile -C $builddir && touch $out";
                 pool := "console" |});;
  emit DNewline;;
  emit (DRule {| rule_name := "meson_install";
                 description := "meson install $name";
                 generator := false;
                 command := "$mesonbuild install --only-changed --destdir $stagingdir -C $builddir &&"
                            ++ "touch $out";
                 pool := "console" |}).

(** The three methods, in the order of their definition. *)
Definition add_all_rules : rules unit :=
  add_outpost_rules;; add_outpost_internals_rules;; add_meson_rules.

End Rules.

Section Variables.
(** [Path.resolve(strict=True)] and [Path.resolve()] *)
Variable resolve_strict : Pathlib.Path → result Pathlib.Path.
Variable resolve : Pathlib.Path → Pathlib.Path.

(** [add_outpost_dts] *)
Definition add_outpost_dts (dts : Pathlib.Path)
    (dts_include_dirs : list Pathlib.Path) : rules unit :=
  emit DNewline;;
  resolved ← lift (resolve_strict dts);
  emit (DVariable "dts" (Pathlib.str resolved));;
  emit (DVariable "dtsincdir"
          (String.concat ","
             ((λ d, Pathlib.str (resolve d)) <$> dts_include_dirs))).

(** [add_outpost_cross_file] *)
Definition add_outpost_cross_file (crossfile : Pathlib.Path) : rules unit :=
  emit DNewline;;
  emit (DVariable "crossfile" (Pathlib.str crossfile)).

End Variables.

(** The rules and the top-level variables a file declares. *)
Definition declared_rules (st : list Decl) : list RuleDecl :=
  omap (λ d, match d with DRule r => Some r | _ => None end) st.

Definition declared_variables (st : list Decl) : list string :=
  omap (λ d, match d with DVariable key _ => Some key | _ => None end) st.

(** The variables a command or description refers to: each [$] followed by
    letters, digits, [_] or [-]. *)
Definition is_varchar (c : ascii) : bool :=
  let n := nat_of_ascii c in
  ((97 <=? n) && (n <=? 122) || (65 <=? n) && (n <=? 90)
   || (48 <=? n) && (n <=? 57) || (n =? 95) || (n =? 45))%nat.

Fixpoint dollar_vars_from (s : string) (cur : option string) : list string :=
  match s with
  | EmptyString => match cur with Some v => [v] | None => [] end
  | String c s' =>
      match cur with
      | Some v =>
          if is_varchar c
          then dollar_vars_from s' (Some (v ++ String c EmptyString))
          else v :: dollar_vars_from s'
                      (if Ascii.eqb c "$" then Some EmptyString else None)
      | None =>
          dollar_vars_from s' (if Ascii.eqb c "$" then Some EmptyString else None)
      end
  end.

Definition dollar_vars (s : string) : list string := dollar_vars_from s None.

(** The variables written under an edge: [None] is never written. *)
Definition bound_variables (b : NinjaBackend.Build) : list string :=
  omap (λ kv, match kv.2 with
              | NinjaBackend.PNone => None
              | _ => Some kv.1
              end)
       (NinjaBackend.variables b).

(** The variables the rule of an edge refers to that neither the executor
    ([in], [out]), nor the top level of the file, nor the edge itself
    binds. *)
Definition unbound_variables (decls : list Decl) (b : NinjaBackend.Build)
    : list string :=
  r ← filter (λ r, rule_name r = NinjaBackend.rule b) (declared_rules decls);
  filter (λ v, (v ∉ ["in"; "out"]) ∧ (v ∉ declared_variables decls)
               ∧ (v ∉ bound_variables b))
         (dollar_vars (command r) ++ dollar_vars (description r))%list.

End NinjaRules.

(** * Properties *)

(** ** task_meta.py: bit-packed fields *)

Module TaskMetaProofs.
Import TaskMeta.
Local Open Scope Z_scope.

Lemma store_raw_u32 v : u32 v → store_raw v = Ok v.
Proof.
  unfold u32, store_raw. intros [Hlo Hhi].
  destruct (Z.leb_spec 0 v); [|lia].
  destruct (Z.leb_spec v 0xffffffff); [reflexivity|lia].
Qed.

Lemma u32_testbit_high v i : u32 v → 32 <= i → Z.testbit v i = false.
Proof.
  intros [Hlo Hhi] Hi.
  destruct (Z.eq_dec v 0) as [->|Hne]; [apply Z.bits_0|].
  apply Z.bits_above_log2; [lia|].
  assert (Z.log2 v < 32) by (apply Z.log2_lt_pow2; lia). lia.
Qed.

Lemma u32_of_bits v :
  0 <= v → (∀ i, 32 <= i → Z.testbit v i = false) → u32 v.
Proof.
  intros Hlo Hbits. split; [assumption|].
  destruct (Z.eq_dec v 0) as [->|Hne]; [reflexivity|].
  apply Z.log2_lt_pow2; [lia|].
  destruct (Z_lt_le_dec (Z.log2 v) 32) as [|Hge]; [assumption|].
  specialize (Hbits _ Hge). rewrite Z.bit_log2 in Hbits by lia. discriminate.
Qed.

(** The constants of the setters, bit by bit. *)
Lemma testbit_id_mask i :
  Z.testbit _id_mask i = (13 <=? i) && (i <? 29).
Proof.
  unfold _id_mask, _id_shift.
  destruct (Z.leb_spec 13 i) as [Hi|Hi]; simpl.
  - rewrite Z.shiftl_spec by lia.
    change 0x0000ffff with (Z.ones 16).
    rewrite Z.testbit_ones_nonneg by lia.
    destruct (Z.ltb_spec (i - 13) 16), (Z.ltb_spec i 29); lia || reflexivity.
  - destruct (Z_lt_le_dec i 0); [apply Z.testbit_neg_r; lia|].
    rewrite Z.shiftl_spec by lia. apply Z.testbit_neg_r. lia.
Qed.

Lemma testbit_fffffffe i :
  0 <= i → Z.testbit 0xfffffffe i = (1 <=? i) && (i <? 32).
Proof.
  intros Hi. change 0xfffffffe with (Z.shiftl (Z.ones 31) 1).
  destruct (Z.leb_spec 1 i); simpl.
  - rewrite Z.shiftl_spec, Z.testbit_ones_nonneg by lia.
    destruct (Z.ltb_spec (i - 1) 31), (Z.ltb_spec i 32); lia || reflexivity.
  - rewrite Z.shiftl_spec by lia. apply Z.testbit_neg_r. lia.
Qed.

Lemma testbit_fffffff1 i :
  0 <= i → Z.testbit 0xfffffff1 i = (i =? 0) || ((4 <=? i) && (i <? 32)).
Proof.
  intros Hi. change 0xfffffff1 with (Z.lor 1 (Z.shiftl (Z.ones 28) 4)).
  rewrite Z.lor_spec.
  assert (H1 : Z.testbit 1 i = (i =? 0)).
  { destruct (Z.eqb_spec i 0) as [->|]; [reflexivity|].
    apply (Z.bits_above_log2 1 i); simpl; lia. }
  rewrite H1. f_equal.
  destruct (Z.leb_spec 4 i); simpl.
  - rewrite Z.shiftl_spec, Z.testbit_ones_nonneg by lia.
    destruct (Z.ltb_spec (i - 4) 28), (Z.ltb_spec i 32); lia || reflexivity.
  - rewrite Z.shiftl_spec by lia. apply Z.testbit_neg_r. lia.
Qed.

Lemma testbit_low_bits n k i :
  0 <= k → 0 <= n < 2 ^ k → 0 <= i → Z.testbit n i = Z.testbit n i && (i <? k).
Proof.
  intros Hk Hn Hi. destruct (Z.ltb_spec i k); [by rewrite andb_true_r|].
  rewrite andb_false_r.
  rewrite <- (Z.mod_small n (2 ^ k)) by lia.
  apply Z.mod_pow2_bits_high. lia.
Qed.

(** *** TaskHandle.id *)

Lemma testbit_id_written raw new_id i :
  0 <= i →
  Z.testbit (id_written raw new_id) i =
    if (13 <=? i) && (i <? 29) then Z.testbit new_id (i - 13) else Z.testbit raw i.
Proof.
  intros Hi. unfold id_written.
  rewrite Z.lor_spec, !Z.land_spec, Z.lnot_spec, testbit_id_mask by lia.
  destruct ((13 <=? i) && (i <? 29)) eqn:Hin; simpl.
  - rewrite andb_false_r, andb_true_r. simpl.
    unfold _id_shift. apply Z.shiftl_spec. lia.
  - by rewrite andb_true_r, andb_false_r, orb_false_r.
Qed.

Lemma set_id_ok raw new_id :
  u32 raw → set_id raw new_id = Ok (id_written raw new_id) ∧ u32 (id_written raw new_id).
Proof.
  intros Hraw.
  assert (Hmid : u32 (Z.land raw (Z.lnot _id_mask))).
  { apply u32_of_bits.
    - apply Z.land_nonneg. left. apply Hraw.
    - intros i Hi. rewrite Z.land_spec, (u32_testbit_high raw) by (done || lia).
      reflexivity. }
  assert (Hnn : 0 <= id_written raw new_id).
  { unfold id_written. apply Z.lor_nonneg. split.
    - apply Hmid.
    - apply Z.land_nonneg. right. unfold _id_mask. apply Z.shiftl_nonneg. lia. }
  assert (Hout : u32 (id_written raw new_id)).
  { apply u32_of_bits; [assumption|]. intros i Hi.
    rewrite testbit_id_written by lia.
    destruct (Z.leb_spec 13 i), (Z.ltb_spec i 29); simpl; try lia.
    by apply u32_testbit_high. }
  split; [|assumption].
  unfold set_id. rewrite (store_raw_u32 _ Hmid). simpl.
  by apply store_raw_u32.
Qed.

Lemma id_read_back raw new_id :
  0 <= new_id < 2 ^ 16 → id (id_written raw new_id) = new_id.
Proof.
  intros Hid. unfold id. apply Z.bits_inj'. intros i Hi.
  unfold _id_shift at 1. rewrite Z.shiftr_spec, Z.land_spec by lia.
  rewrite testbit_id_written, testbit_id_mask by lia.
  rewrite (testbit_low_bits new_id 16 i) by lia.
  destruct (Z.leb_spec 13 (i + 13)); [|lia]. simpl.
  replace (i + 13 - 13) with i by lia.
  destruct (Z.ltb_spec (i + 13) 29), (Z.ltb_spec i 16); simpl;
    lia || reflexivity || by rewrite !andb_false_r.
Qed.

(** C2: for a 16-bit id and a 32-bit handle field, the [id] setter succeeds
    as a read-modify-write: the field still fits 32 bits, the [id] getter
    returns the id that was set, bits 13..28 hold the id, and every bit
    outside the 16-bit mask at offset 13 keeps its initial value. *)
Theorem C2_set_id_read_modify_write (raw new_id : Z) :
  u32 raw → 0 <= new_id < 2 ^ 16 →
  ∃ raw', set_id raw new_id = Ok raw'
    ∧ u32 raw'
    ∧ id raw' = new_id
    ∧ (∀ j, 0 <= j < 16 → Z.testbit raw' (13 + j) = Z.testbit new_id j)
    ∧ (∀ i, 0 <= i → ¬ (13 <= i < 29) → Z.testbit raw' i = Z.testbit raw i).
Proof.
  intros Hraw Hid. exists (id_written raw new_id).
  destruct (set_id_ok raw new_id Hraw) as [Hset Hu].
  repeat split; try assumption; try apply Hu.
  - by apply id_read_back.
  - intros j Hj. rewrite testbit_id_written by lia.
    destruct (Z.leb_spec 13 (13 + j)), (Z.ltb_spec (13 + j) 29); simpl; try lia.
    f_equal. lia.
  - intros i Hi Hout. rewrite testbit_id_written by lia.
    destruct (Z.leb_spec 13 i), (Z.ltb_spec i 29); simpl; lia || reflexivity.
Qed.

Lemma C2_witness :
  ∃ raw', set_id 0xffffffff 0x1234 = Ok raw'
    ∧ u32 raw'
    ∧ id raw' = 0x1234
    ∧ (∀ j, 0 <= j < 16 → Z.testbit raw' (13 + j) = Z.testbit 0x1234 j)
    ∧ (∀ i, 0 <= i → ¬ (13 <= i < 29) → Z.testbit raw' i = Z.testbit 0xffffffff i).
Proof.
  apply (C2_set_id_read_modify_write 0xffffffff 0x1234).
  - unfold u32. lia.
  - lia.
Defined.

(** *** JobFlags *)

Lemma testbit_exit_written raw ordinal i :
  u32 raw → 0 <= i →
  Z.testbit (exit_written raw ordinal) i =
    if (1 <=? i) && (i <? 4) then Z.testbit ordinal (i - 1) else Z.testbit raw i.
Proof.
  intros Hraw Hi. unfold exit_written.
  rewrite Z.lor_spec, Z.land_spec, testbit_fffffff1 by lia.
  destruct (Z.leb_spec 1 i) as [H1|H1]; simpl.
  - rewrite Z.shiftl_spec, Z.land_spec by lia.
    change 0x7 with (Z.ones 3). rewrite Z.testbit_ones_nonneg by lia.
    destruct (Z.eqb_spec i 0); [lia|]. simpl.
    destruct (Z.ltb_spec i 4), (Z.ltb_spec (i - 1) 3); try lia; simpl.
    + destruct (Z.leb_spec 4 i); [lia|]. simpl.
      by rewrite andb_false_r, andb_true_r.
    + destruct (Z.leb_spec 4 i); [|lia]. simpl.
      rewrite andb_false_r, orb_false_r.
      destruct (Z.ltb_spec i 32); [by rewrite andb_true_r|].
      rewrite andb_false_r. symmetry. by apply u32_testbit_high.
  - assert (i = 0) as -> by lia.
    rewrite Z.shiftl_spec by lia.
    rewrite (Z.testbit_neg_r (Z.land ordinal 7) (0 - 1)) by lia.
    change ((0 =? 0) || (4 <=? 0) && (0 <? 32)) with true.
    by rewrite orb_false_r, andb_true_r.
Qed.

Lemma testbit_autostart_written raw auto i :
  u32 raw → 0 <= i →
  Z.testbit (autostart_written raw auto) i =
    if i =? 0 then auto else Z.testbit raw i.
Proof.
  intros Hraw Hi. unfold autostart_written.
  rewrite Z.lor_spec, Z.land_spec, testbit_fffffffe by lia.
  destruct (Z.eqb_spec i 0) as [->|Hne].
  - simpl. rewrite andb_false_r. by destruct auto.
  - destruct (Z.leb_spec 1 i); [|lia]. simpl.
    assert (Z.testbit (Z.land (if auto then JOB_FLAG_START_AUTO
                               else JOB_FLAG_START_NOAUTO) 0x1) i = false) as ->.
    { rewrite Z.land_spec. change 0x1 with (Z.ones 1).
      rewrite Z.testbit_ones_nonneg by lia.
      destruct (Z.ltb_spec i 1); [lia|]. apply andb_false_r. }
    rewrite orb_false_r.
    destruct (Z.ltb_spec i 32); [by rewrite andb_true_r|].
    rewrite andb_false_r. symmetry. by apply u32_testbit_high.
Qed.

Lemma land_mask_u32 raw mask : u32 raw → u32 (Z.land raw mask).
Proof.
  intros Hraw. apply u32_of_bits.
  - apply Z.land_nonneg. left. apply Hraw.
  - intros i Hi. by rewrite Z.land_spec, (u32_testbit_high raw).
Qed.

Lemma exit_mode_ordinal mode ordinal :
  dict_get _exit_mode mode = Ok ordinal → 0 <= ordinal <= 4.
Proof.
  unfold _exit_mode. cbn [dict_get].
  repeat (destruct (String.eqb _ mode);
          [intros [= <-]; vm_compute; split; discriminate|]).
  discriminate.
Qed.

Lemma set_exit_mode_ok raw mode ordinal :
  u32 raw → dict_get _exit_mode mode = Ok ordinal →
  set_exit_mode raw mode = Ok (exit_written raw ordinal) ∧ u32 (exit_written raw ordinal).
Proof.
  intros Hraw Hmode.
  assert (Hord := exit_mode_ordinal _ _ Hmode).
  assert (Hout : u32 (exit_written raw ordinal)).
  { apply u32_of_bits.
    - unfold exit_written. apply Z.lor_nonneg. split.
      + apply Z.land_nonneg. left. apply Hraw.
      + apply Z.shiftl_nonneg, Z.land_nonneg. left. lia.
    - intros i Hi. rewrite testbit_exit_written by (done || lia).
      destruct (Z.leb_spec 1 i), (Z.ltb_spec i 4); simpl; try lia.
      by apply u32_testbit_high. }
  split; [|assumption].
  unfold set_exit_mode. rewrite Hmode. simpl.
  rewrite (store_raw_u32 _ (land_mask_u32 raw _ Hraw)). simpl.
  by apply store_raw_u32.
Qed.

Lemma set_autostart_mode_ok raw auto :
  u32 raw →
  set_autostart_mode raw auto = Ok (autostart_written raw auto)
  ∧ u32 (autostart_written raw auto).
Proof.
  intros Hraw.
  assert (Hout : u32 (autostart_written raw auto)).
  { apply u32_of_bits.
    - unfold autostart_written. apply Z.lor_nonneg. split.
      + apply Z.land_nonneg. left. apply Hraw.
      + apply Z.land_nonneg. right. lia.
    - intros i Hi. rewrite testbit_autostart_written by (done || lia).
      destruct (Z.eqb_spec i 0); [lia|]. by apply u32_testbit_high. }
  split; [|assumption].
  unfold set_autostart_mode.
  rewrite (store_raw_u32 _ (land_mask_u32 raw _ Hraw)). simpl.
  by apply store_raw_u32.
Qed.

(** Both getters, bit by bit. *)
Lemma autostart_mode_bit raw : autostart_mode raw = Z.testbit raw 0.
Proof.
  unfold autostart_mode, JOB_FLAG_START_AUTO.
  change 0x1 with (Z.ones 1). rewrite Z.land_ones by lia.
  rewrite Z.bit0_odd, Z.pow_1_r.
  rewrite Zmod_odd. by destruct (Z.odd raw).
Qed.

Lemma testbit_exit_mode raw j :
  0 <= j → Z.testbit (exit_mode raw) j = Z.testbit raw (j + 1) && (j <? 3).
Proof.
  intros Hj. unfold exit_mode. rewrite Z.land_spec, Z.shiftr_spec by lia.
  change 0x7 with (Z.ones 3). by rewrite Z.testbit_ones_nonneg by lia.
Qed.

Lemma exit_mode_range raw : 0 <= exit_mode raw <= 7.
Proof.
  unfold exit_mode. change 0x7 with (Z.ones 3).
  rewrite Z.land_ones by lia. change (2 ^ 3) with 8.
  change (Z.ones 3) with 7.
  pose proof (Z.mod_pos_bound (Z.shiftr raw 1) 8 eq_refl). lia.
Qed.

(** C3: on a 32-bit job-flags field, the exit-mode setter changes bits 1-3
    only (bit 0 and bits 4-31 keep their value, so the autostart flag reads
    the same), the autostart setter changes bit 0 only (the exit mode reads
    the same); from 0x00000003 (autostart set, exit mode restart) setting the
    exit mode to panic gives 0x00000005, autostart still set. *)
Theorem C3_job_flags_isolation (raw : Z) :
  u32 raw →
  (∀ mode ordinal, dict_get _exit_mode mode = Ok ordinal →
     ∃ raw', set_exit_mode raw mode = Ok raw'
       ∧ (∀ i, 0 <= i → ¬ (1 <= i <= 3) → Z.testbit raw' i = Z.testbit raw i)
       ∧ autostart_mode raw' = autostart_mode raw
       ∧ exit_mode raw' = ordinal)
  ∧ (∀ auto, ∃ raw', set_autostart_mode raw auto = Ok raw'
       ∧ (∀ i, 1 <= i → Z.testbit raw' i = Z.testbit raw i)
       ∧ exit_mode raw' = exit_mode raw
       ∧ autostart_mode raw' = auto)
  ∧ (autostart_mode 0x00000003 = true
     ∧ exit_mode 0x00000003 = JOB_FLAG_EXIT_RESTART
     ∧ set_exit_mode 0x00000003 "panic" = Ok 0x00000005
     ∧ autostart_mode 0x00000005 = true
     ∧ exit_mode 0x00000005 = JOB_FLAG_EXIT_PANIC).
Proof.
  intros Hraw. split; [|split].
  - intros mode ordinal Hmode.
    destruct (set_exit_mode_ok raw mode ordinal Hraw Hmode) as [Hset Hu].
    exists (exit_written raw ordinal). split; [assumption|].
    assert (Hframe : ∀ i, 0 <= i → ¬ (1 <= i <= 3) →
              Z.testbit (exit_written raw ordinal) i = Z.testbit raw i).
    { intros i Hi Hout. rewrite testbit_exit_written by (done || lia).
      destruct (Z.leb_spec 1 i), (Z.ltb_spec i 4); simpl; lia || reflexivity. }
    split; [assumption|]. split.
    + rewrite !autostart_mode_bit. apply Hframe; lia.
    + pose proof (exit_mode_ordinal _ _ Hmode) as Hord.
      apply Z.bits_inj'. intros j Hj.
      rewrite testbit_exit_mode, testbit_exit_written by (done || lia).
      destruct (Z.ltb_spec j 3) as [Hlt|Hge].
      * destruct (Z.leb_spec 1 (j + 1)), (Z.ltb_spec (j + 1) 4); simpl; try lia.
        rewrite andb_true_r. f_equal. lia.
      * rewrite andb_false_r. symmetry.
        rewrite <- (Z.mod_small ordinal (2 ^ 3)) by (change (2 ^ 3) with 8; lia).
        apply Z.mod_pow2_bits_high. lia.
  - intros auto.
    destruct (set_autostart_mode_ok raw auto Hraw) as [Hset Hu].
    exists (autostart_written raw auto). split; [assumption|].
    assert (Hframe : ∀ i, 1 <= i →
              Z.testbit (autostart_written raw auto) i = Z.testbit raw i).
    { intros i Hi. rewrite testbit_autostart_written by (done || lia).
      destruct (Z.eqb_spec i 0); lia || reflexivity. }
    split; [assumption|]. split.
    + apply Z.bits_inj'. intros j Hj.
      rewrite !testbit_exit_mode by lia. f_equal. apply Hframe. lia.
    + rewrite autostart_mode_bit, testbit_autostart_written by (done || lia).
      reflexivity.
  - repeat split; reflexivity.
Qed.

Lemma C3_witness :
  (∀ mode ordinal, dict_get _exit_mode mode = Ok ordinal →
     ∃ raw', set_exit_mode 0x00000003 mode = Ok raw'
       ∧ (∀ i, 0 <= i → ¬ (1 <= i <= 3) → Z.testbit raw' i = Z.testbit 0x00000003 i)
       ∧ autostart_mode raw' = autostart_mode 0x00000003
       ∧ exit_mode raw' = ordinal)
  ∧ (∀ auto, ∃ raw', set_autostart_mode 0x00000003 auto = Ok raw'
       ∧ (∀ i, 1 <= i → Z.testbit raw' i = Z.testbit 0x00000003 i)
       ∧ exit_mode raw' = exit_mode 0x00000003
       ∧ autostart_mode raw' = auto)
  ∧ (autostart_mode 0x00000003 = true
     ∧ exit_mode 0x00000003 = JOB_FLAG_EXIT_RESTART
     ∧ set_exit_mode 0x00000003 "panic" = Ok 0x00000005
     ∧ autostart_mode 0x00000005 = true
     ∧ exit_mode 0x00000005 = JOB_FLAG_EXIT_PANIC).
Proof.
  apply (C3_job_flags_isolation 0x00000003). unfold u32. lia.
Defined.

(** C5, as stated, fails: the field 0x0000000A has bits 1-3 equal to 5,
    which is none of the five defined exit modes, and reading the field back
    returns [(false, 5)] instead of raising. *)
Lemma C5_counterexample :
  u32 0x0000000A
  ∧ ¬ In (exit_mode 0x0000000A) defined_exit_modes
  ∧ read_job_flags 0x0000000A = Ok (false, 5)
  ∧ ∀ e, read_job_flags 0x0000000A ≠ Raise e.
Proof.
  split; [unfold u32; lia|]. split; [|split].
  - vm_compute. intuition discriminate.
  - reflexivity.
  - intros e. discriminate.
Qed.

(** C5 (amended): for every 32-bit job-flags field value, reading the field
    never fails: it returns the autostart bit (bit 0) and bits 1-3 as an
    integer between 0 and 7, without checking it against the five defined
    exit modes; when bits 1-3 hold one of the five modes, that mode is the
    one returned. *)
Theorem C5_read_job_flags_unchecked (raw : Z) :
  u32 raw →
  read_job_flags raw = Ok (Z.testbit raw 0, exit_mode raw)
  ∧ 0 <= exit_mode raw <= 7
  ∧ (∀ j, 0 <= j → Z.testbit (exit_mode raw) j = Z.testbit raw (j + 1) && (j <? 3))
  ∧ (∀ m, In m defined_exit_modes →
       (∀ j, 0 <= j < 3 → Z.testbit raw (j + 1) = Z.testbit m j) →
       read_job_flags raw = Ok (Z.testbit raw 0, m)).
Proof.
  intros _. unfold read_job_flags. rewrite autostart_mode_bit.
  split; [reflexivity|]. split; [apply exit_mode_range|].
  split; [intros j Hj; by apply testbit_exit_mode|].
  intros m Hm Hbits. do 2 f_equal.
  assert (0 <= m <= 4) as Hrange.
  { unfold defined_exit_modes in Hm. simpl in Hm.
    repeat destruct Hm as [<-|Hm]; try (vm_compute; split; discriminate).
    destruct Hm. }
  apply Z.bits_inj'. intros j Hj. rewrite testbit_exit_mode by lia.
  destruct (Z.ltb_spec j 3).
  - rewrite andb_true_r. apply Hbits. lia.
  - rewrite andb_false_r. symmetry.
    rewrite <- (Z.mod_small m (2 ^ 3)) by (change (2 ^ 3) with 8; lia).
    apply Z.mod_pow2_bits_high. lia.
Qed.

Lemma C5_witness :
  read_job_flags 0x00000005 = Ok (Z.testbit 0x00000005 0, exit_mode 0x00000005)
  ∧ 0 <= exit_mode 0x00000005 <= 7
  ∧ (∀ j, 0 <= j →
       Z.testbit (exit_mode 0x00000005) j = Z.testbit 0x00000005 (j + 1) && (j <? 3))
  ∧ (∀ m, In m defined_exit_modes →
       (∀ j, 0 <= j < 3 → Z.testbit 0x00000005 (j + 1) = Z.testbit m j) →
       read_job_flags 0x00000005 = Ok (Z.testbit 0x00000005 0, m)).
Proof.
  apply (C5_read_job_flags_unchecked 0x00000005). unfold u32. lia.
Defined.

End TaskMetaProofs.

(** ** meson_package_dyndep.py: the file sets *)

Module DyndepProofs.
Import Pathlib Dyndep.
Local Open Scope string_scope.

(** *** Membership in [package_sources] *)

Lemma elem_of_extend_target_sources acc group x :
  x ∈ extend_target_sources acc group ↔ x ∈ acc ∨ in_group group x.
Proof.
  unfold extend_target_sources, in_group.
  destruct (sources group) as [l1|], (generated_sources group) as [l2|];
    rewrite ?elem_of_app; split.
  - intros [[?|?]|?]; eauto 6.
  - intros [?|(files & [[= <-]|[= <-]] & ?)]; auto.
  - intros [?|?]; eauto 6.
  - intros [?|(files & [[= <-]|[=]] & ?)]; auto.
  - intros [?|?]; eauto 6.
  - intros [?|(files & [[=]|[= <-]] & ?)]; auto.
  - auto.
  - intros [?|(files & [[=]|[=]] & ?)]; auto.
Qed.

Lemma elem_of_foldl_groups groups acc x :
  x ∈ foldl extend_target_sources acc groups
  ↔ x ∈ acc ∨ ∃ group, group ∈ groups ∧ in_group group x.
Proof.
  revert acc. induction groups as [|g groups IH]; intros acc; simpl.
  - split; [auto|]. intros [?|(g & Hg & _)]; [done|]. by apply elem_of_nil in Hg.
  - rewrite IH, elem_of_extend_target_sources. split.
    + intros [[?|?]|(g' & ? & ?)]; [auto| |].
      * right. exists g. split; [left|done].
      * right. exists g'. split; [by right|done].
    + intros [?|(g' & Hg' & ?)]; [auto|].
      apply elem_of_cons in Hg' as [->|?]; [auto|eauto].
Qed.

Lemma elem_of_extend_target acc target x :
  x ∈ extend_target acc target ↔ x ∈ acc ∨ in_target target x.
Proof.
  unfold extend_target, in_target.
  destruct (target_sources target) as [groups|].
  - rewrite elem_of_foldl_groups. split.
    + intros [?|(g & ? & ?)]; eauto 6.
    + intros [?|(gs & g & [= <-] & ? & ?)]; eauto.
  - split; [auto|]. intros [?|(gs & g & [=] & _)]; done.
Qed.

Lemma elem_of_foldl_targets ts acc x :
  x ∈ foldl extend_target acc ts
  ↔ x ∈ acc ∨ ∃ target, target ∈ ts ∧ in_target target x.
Proof.
  revert acc. induction ts as [|t ts IH]; intros acc; simpl.
  - split; [auto|]. intros [?|(t & Ht & _)]; [done|]. by apply elem_of_nil in Ht.
  - rewrite IH, elem_of_extend_target. split.
    + intros [[?|?]|(t' & ? & ?)]; [auto| |].
      * right. exists t. split; [left|done].
      * right. exists t'. split; [by right|done].
    + intros [?|(t' & Ht' & ?)]; [auto|].
      apply elem_of_cons in Ht' as [->|?]; [auto|eauto].
Qed.

Lemma elem_of_package_sources introspect x :
  x ∈ package_sources introspect ↔ is_source introspect x.
Proof.
  unfold package_sources, is_source. rewrite elem_of_foldl_targets. split.
  - intros [Hnil|(t & Ht & gs & g & Hgs & Hg & files & Hf & Hx)].
    + by apply elem_of_nil in Hnil.
    + exists t, gs, g, files. done.
  - intros (t & gs & g & files & Ht & Hgs & Hg & Hf & Hx).
    right. exists t. split; [done|]. exists gs, g. split; [done|].
    split; [done|]. exists files. done.
Qed.

(** *** The four sets *)

Lemma compile_implicit_outputs_dom introspect stagingdir :
  compile_implicit_outputs (dyndep_sets introspect stagingdir)
  = dom (installed introspect).
Proof. simpl. apply leibniz_equiv. symmetry. apply dom_alt. Qed.

Lemma elem_of_compile_implicit_inputs introspect stagingdir x :
  x ∈ compile_implicit_inputs (dyndep_sets introspect stagingdir)
  ↔ (x ∈ buildsystem_files introspect ∨ is_source introspect x)
    ∧ x ∉ compile_implicit_outputs (dyndep_sets introspect stagingdir).
Proof.
  simpl. rewrite elem_of_difference, elem_of_list_to_set, elem_of_app.
  by rewrite elem_of_package_sources.
Qed.

Lemma elem_of_install_implicit_outputs introspect stagingdir p :
  p ∈ install_implicit_outputs (dyndep_sets introspect stagingdir)
  ↔ ∃ k dest, installed introspect !! k = Some dest
              ∧ p = truediv stagingdir (slice_from_1 dest).
Proof.
  simpl. rewrite elem_of_list_to_set, list_elem_of_fmap. split.
  - intros (dest & -> & Hdest).
    apply list_elem_of_fmap in Hdest as ([k d] & -> & Hkd).
    apply elem_of_map_to_list in Hkd. by exists k, d.
  - intros (k & dest & Hk & ->). exists dest. split; [done|].
    apply list_elem_of_fmap. exists (k, dest). split; [done|].
    by apply elem_of_map_to_list.
Qed.

Lemma slice_strip dest :
  starts_with_sep dest → slice_from_1 dest = strip_leading_sep dest.
Proof. by intros [rest ->]. Qed.

(** C1, as stated, fails on a destination that does not begin with the
    separator: with [C] installed to [usr/bin/C] and staging directory
    [/stage], the claim gives the install step the implicit output
    [/stage/usr/bin/C], and the code gives it [/stage/sr/bin/C]. *)
Lemma C1_counterexample :
  let stage := parse "/stage" in
  let sets := dyndep_sets snapshot_rel stage in
  installed snapshot_rel !! "C" = Some "usr/bin/C"
  ∧ truediv stage (strip_leading_sep "usr/bin/C")
    = mkPath "/" ["stage"; "usr"; "bin"; "C"]
  ∧ (mkPath "/" ["stage"; "usr"; "bin"; "C"] ∉ install_implicit_outputs sets)
  ∧ elements (install_implicit_outputs sets)
    = [mkPath "/" ["stage"; "sr"; "bin"; "C"]].
Proof.
  assert (Hel : elements (install_implicit_outputs
                            (dyndep_sets snapshot_rel (parse "/stage")))
                = [mkPath "/" ["stage"; "sr"; "bin"; "C"]])
    by (vm_compute; reflexivity).
  cbv zeta. split; [reflexivity|]. split; [reflexivity|]. split; [|exact Hel].
  rewrite <- elem_of_elements, Hel. intros Hin.
  apply list_elem_of_singleton in Hin. discriminate Hin.
Qed.

(** C1 (amended): for every introspection snapshot, the compile step's
    implicit outputs are the keys of the installed map; its implicit inputs
    are the build-system files and all source and generated-source files
    minus those outputs, so the two sets are disjoint; the install step's
    implicit inputs are the compile step's implicit outputs; and, when every
    installed destination begins with the path separator, the install
    step's implicit outputs are the staging directory joined with each
    installed destination stripped of its leading separator. *)
Theorem C1_dyndep_sets (introspect : Introspection) (stagingdir : Path) :
  let sets := dyndep_sets introspect stagingdir in
  compile_implicit_outputs sets = dom (installed introspect)
  ∧ (∀ x, x ∈ compile_implicit_inputs sets
          ↔ (x ∈ buildsystem_files introspect ∨ is_source introspect x)
            ∧ x ∉ compile_implicit_outputs sets)
  ∧ compile_implicit_inputs sets ## compile_implicit_outputs sets
  ∧ install_implicit_inputs sets = compile_implicit_outputs sets
  ∧ ((∀ k dest, installed introspect !! k = Some dest → starts_with_sep dest) →
     ∀ p, p ∈ install_implicit_outputs sets
          ↔ ∃ k dest, installed introspect !! k = Some dest
                      ∧ p = truediv stagingdir (strip_leading_sep dest)).
Proof.
  intros sets. split; [apply compile_implicit_outputs_dom|].
  split; [intros x; apply elem_of_compile_implicit_inputs|].
  split; [|split; [reflexivity|]].
  - intros x Hin Hout.
    apply elem_of_compile_implicit_inputs in Hin as [_ Hnot]. by apply Hnot.
  - intros Habs p. unfold sets. rewrite elem_of_install_implicit_outputs.
    split; intros (k & dest & Hk & ->); exists k, dest; (split; [done|]);
      by rewrite (slice_strip dest (Habs k dest Hk)).
Qed.

Lemma C1_witness :
  let sets := dyndep_sets snapshot_abs (parse "/stage") in
  compile_implicit_outputs sets = dom (installed snapshot_abs)
  ∧ (∀ x, x ∈ compile_implicit_inputs sets
          ↔ (x ∈ buildsystem_files snapshot_abs ∨ is_source snapshot_abs x)
            ∧ x ∉ compile_implicit_outputs sets)
  ∧ compile_implicit_inputs sets ## compile_implicit_outputs sets
  ∧ install_implicit_inputs sets = compile_implicit_outputs sets
  ∧ (∀ p, p ∈ install_implicit_outputs sets
          ↔ ∃ k dest, installed snapshot_abs !! k = Some dest
                      ∧ p = truediv (parse "/stage") (strip_leading_sep dest)).
Proof.
  destruct (C1_dyndep_sets snapshot_abs (parse "/stage"))
    as (Hout & Hin & Hdisj & Hinst & Hstaged).
  cbv zeta. split; [exact Hout|]. split; [exact Hin|]. split; [exact Hdisj|].
  split; [exact Hinst|]. apply Hstaged.
  intros k dest Hk. simpl in Hk.
  apply lookup_singleton_Some in Hk as [_ <-]. by eexists.
Defined.

(** C10: the install step's implicit outputs are the staging directory
    joined with each installed destination without its first character,
    whatever that character is: [/usr/bin/C] is staged as
    [/stage/usr/bin/C], and [usr/bin/C] as [/stage/sr/bin/C], its first
    character lost. *)
Theorem C10_first_character_dropped (introspect : Introspection) (stagingdir : Path) :
  let sets := dyndep_sets introspect stagingdir in
  (∀ p, p ∈ install_implicit_outputs sets
        ↔ ∃ k dest, installed introspect !! k = Some dest
                    ∧ p = truediv stagingdir (slice_from_1 dest))
  ∧ (∀ k c rest, installed introspect !! k = Some (String c rest) →
       truediv stagingdir rest ∈ install_implicit_outputs sets)
  ∧ str <$> elements (install_implicit_outputs
                        (dyndep_sets snapshot_abs (parse "/stage")))
    = ["/stage/usr/bin/C"]
  ∧ str <$> elements (install_implicit_outputs
                        (dyndep_sets snapshot_rel (parse "/stage")))
    = ["/stage/sr/bin/C"].
Proof.
  intros sets. split; [intros p; apply elem_of_install_implicit_outputs|].
  split; [|split; vm_compute; reflexivity].
  intros k c rest Hk. apply elem_of_install_implicit_outputs.
  by exists k, (String c rest).
Qed.

Lemma C10_witness :
  truediv (parse "/stage") "sr/bin/C"
  ∈ install_implicit_outputs (dyndep_sets snapshot_rel (parse "/stage")).
Proof.
  destruct (C10_first_character_dropped snapshot_rel (parse "/stage"))
    as (_ & Hdrop & _).
  apply (Hdrop "C" "u"%char "sr/bin/C"). reflexivity.
Defined.

(** *** The declaration file *)

Lemma append_assoc (a b c : string) : (a ++ b) ++ c = a ++ (b ++ c).
Proof.
  induction a as [|x a IH]; [reflexivity|].
  change (String x ((a ++ b) ++ c) = String x (a ++ (b ++ c))). by rewrite IH.
Qed.

Lemma append_nil_r (a : string) : a ++ EmptyString = a.
Proof.
  induction a as [|x a IH]; [reflexivity|].
  change (String x (a ++ EmptyString) = String x a). by rewrite IH.
Qed.

Lemma write_insert (out content s : string) (fs : gmap string string) :
  write out s (<[out := content]> fs) = (<[out := content ++ s]> fs, Ok tt).
Proof. unfold write. by rewrite alter_insert_eq. Qed.

Lemma bind_ok {S A B} (m : prog S A) (k : A → prog S B) st st' a :
  m st = (st', Ok a) → (m ≫= k) st = k a st'.
Proof. intros Hm. unfold mbind, prog_bind. by rewrite Hm. Qed.

Lemma for_each_write {A} (fmt : A → string) (l : list A) out content fs :
  for_each l (λ f, write out (" $" ++ nl ++ " " ++ fmt f)) (<[out := content]> fs)
  = (<[out := content
              ++ String.concat EmptyString
                   ((λ f, " $" ++ nl ++ " " ++ f) <$> (fmt <$> l))]> fs,
     Ok tt).
Proof.
  revert content. induction l as [|x l IH]; intros content.
  - simpl. by rewrite append_nil_r.
  - cbn [for_each]. erewrite bind_ok by apply write_insert.
    rewrite IH. do 2 f_equal. rewrite append_assoc. f_equal.
    destruct l; [by rewrite append_nil_r|reflexivity].
Qed.

Lemma iter_nil {A} `{Countable A} (o : SetIter A) (X : gset A) :
  iter o X = [] ↔ X = ∅.
Proof.
  pose proof (iter_perm o X) as Hperm. split.
  - intros Hnil. rewrite Hnil in Hperm.
    apply Permutation_nil_l in Hperm.
    apply leibniz_equiv, elements_empty_inv. by symmetry.
  - intros ->. rewrite elements_empty in Hperm.
    by apply Permutation_nil_r in Hperm.
Qed.

Lemma write_files {A} `{Countable A} (fmt : A → string) (o : SetIter A)
    (X : gset A) out content fs :
  ((if decide (X = ∅) then mret tt else write out " |");;
   for_each (iter o X) (λ f, write out (" $" ++ nl ++ " " ++ fmt f)))
    (<[out := content]> fs)
  = (<[out := content ++ render_files (fmt <$> iter o X)]> fs, Ok tt).
Proof.
  unfold render_files. destruct (decide (X = ∅)) as [HX|HX].
  - apply (iter_nil o) in HX as ->. simpl. by rewrite append_nil_r.
  - erewrite bind_ok by apply write_insert.
    rewrite for_each_write, append_assoc.
    destruct (iter o X) eqn:Hit; [|reflexivity].
    by apply (iter_nil o) in Hit.
Qed.

Lemma bind_assoc {S A B C} (m : prog S A) (k : A → prog S B) (k' : B → prog S C) st :
  ((m ≫= k) ≫= k') st = (m ≫= λ a, k a ≫= k') st.
Proof.
  unfold mbind, prog_bind. destruct (m st) as [st' [a|e]]; reflexivity.
Qed.

Lemma add_build_target_insert {B} `{Countable B} `{Format B}
    (order_in : SetIter string) (order_out : SetIter B) target
    (ins : gset string) (outs : gset B) out content fs :
  _add_build_target_dyndep order_in order_out target ins outs out
    (<[out := content]> fs)
  = (<[out := content
              ++ render_block target (iter order_in ins)
                   (format <$> iter order_out outs)]> fs,
     Ok tt).
Proof.
  unfold _add_build_target_dyndep, render_block.
  erewrite bind_ok by apply write_insert.
  rewrite <- bind_assoc. erewrite bind_ok by apply (write_files format).
  erewrite bind_ok by apply write_insert.
  rewrite <- bind_assoc. erewrite bind_ok by apply (write_files (λ f : string, f)).
  erewrite bind_ok by apply write_insert.
  rewrite write_insert. rewrite list_fmap_id.
  by rewrite !append_assoc.
Qed.

(** The text of the declaration for given iteration sequences of the four
    sets. *)
Lemma gen_ninja_dyndep_file_text order package introspect stagingdir output fs :
  let sets := dyndep_sets introspect stagingdir in
  _gen_ninja_dyndep_file order package introspect stagingdir output fs
  = (<[str output :=
         ("ninja_dyndep_version = 1" ++ nl)
         ++ render_block (package ++ "_compile.stamp")
              (iter (order_str order) (compile_implicit_inputs sets))
              (iter (order_str order) (compile_implicit_outputs sets))
         ++ render_block (package ++ "_install.stamp")
              (iter (order_str order) (install_implicit_inputs sets))
              (str <$> iter (order_path order) (install_implicit_outputs sets))]> fs,
     Ok tt).
Proof.
  intros sets. unfold _gen_ninja_dyndep_file. fold sets.
  erewrite bind_ok by reflexivity.
  erewrite bind_ok by apply write_insert.
  erewrite bind_ok by apply add_build_target_insert.
  rewrite add_build_target_insert. rewrite list_fmap_id.
  by rewrite !append_assoc.
Qed.



(** *** run_meson_package_dyndep *)

(** C8: once meson is found and the build directory resolved, a non-zero
    exit status of the introspection run, or a payload that does not parse,
    makes the command raise and leaves every file as it was; the declaration
    file changes only when the run exited with status 0 and its output
    parsed, in which case the generator is run on the parsed snapshot. *)
Theorem C8_introspection_failure_writes_nothing (w : World) (name : string)
    (builddir stagingdir dyndep outfile : Path) (fs : gmap string string)
    (meson : string) (resolved : Path) :
  find_program w "meson" = Ok meson →
  resolve_strict w builddir = Ok resolved →
  let proc := subprocess_run w [meson; "introspect"; "--all"; "-i"; str resolved] in
  let outcome := run_meson_package_dyndep w name builddir stagingdir dyndep outfile fs in
  (proc.1 ≠ 0%Z → outcome = (fs, Raise (CalledProcessError proc.1)))
  ∧ (proc.1 = 0%Z → ∀ e, json_loads w proc.2 = Raise e → outcome = (fs, Raise e))
  ∧ (outcome.1 ≠ fs → proc.1 = 0%Z ∧ ∃ introspect, json_loads w proc.2 = Ok introspect)
  ∧ (proc.1 = 0%Z → ∀ introspect, json_loads w proc.2 = Ok introspect →
       outcome = _gen_ninja_dyndep_file (set_order w) name introspect
                   stagingdir dyndep fs).
Proof.
  intros Hfind Hres proc outcome.
  assert (Hrun : outcome =
    match (if decide (proc.1 = 0%Z) then Ok proc.2
           else Raise (CalledProcessError proc.1)) with
    | Ok stdout =>
        match json_loads w stdout with
        | Ok introspect =>
            _gen_ninja_dyndep_file (set_order w) name introspect stagingdir dyndep fs
        | Raise e => (fs, Raise e)
        end
    | Raise e => (fs, Raise e)
    end).
  { unfold outcome, run_meson_package_dyndep, lift, mbind, prog_bind.
    rewrite Hfind, Hres. unfold subprocess_run_check. fold proc.
    destruct proc as [rc out]. simpl.
    destruct (decide (rc = 0%Z)); [|reflexivity].
    destruct (json_loads w out); reflexivity. }
  rewrite Hrun. destruct (decide (proc.1 = 0%Z)) as [Hz|Hnz].
  - split; [done|]. split; [|split].
    + intros _ e He. by rewrite He.
    + intros Hchanged. split; [done|].
      destruct (json_loads w proc.2) as [introspect|e]; [by eexists|done].
    + intros _ introspect Hi. by rewrite Hi.
  - split; [done|]. split; [done|]. split; done.
Qed.

Example run_meson_package_dyndep_writes :
  run_meson_package_dyndep working_world "pkg" (parse "build/pkg")
    (parse "/stage") (parse "pkg.dyndep") (parse "pkg_introspect.json")
    {[ "pkg.dyndep" := "stale" ]}
  = ({[ "pkg.dyndep" :=
          "ninja_dyndep_version = 1" ++ nl
          ++ "build pkg_compile.stamp | $" ++ nl ++ " C: dyndep | $" ++ nl
          ++ " A $" ++ nl ++ " B" ++ nl
          ++ "  restat = 1" ++ nl
          ++ "build pkg_install.stamp | $" ++ nl
          ++ " /stage/usr/bin/C: dyndep | $" ++ nl ++ " C" ++ nl
          ++ "  restat = 1" ++ nl ]}, Ok tt).
Proof.
  unfold run_meson_package_dyndep, lift, mbind, prog_bind. simpl.
  rewrite gen_ninja_dyndep_file_text, insert_singleton_eq.
  f_equal.
Qed.

Lemma C8_witness :
  let w := failing_world in
  let fs : gmap string string := {[ "pkg.dyndep" := "stale" ]} in
  let proc := subprocess_run w ["/usr/bin/meson"; "introspect"; "--all"; "-i";
                                str (parse "build/pkg")] in
  let outcome := run_meson_package_dyndep w "pkg" (parse "build/pkg")
                   (parse "/stage") (parse "pkg.dyndep")
                   (parse "pkg_introspect.json") fs in
  (proc.1 ≠ 0%Z → outcome = (fs, Raise (CalledProcessError proc.1)))
  ∧ (proc.1 = 0%Z → ∀ e, json_loads w proc.2 = Raise e → outcome = (fs, Raise e))
  ∧ (outcome.1 ≠ fs → proc.1 = 0%Z ∧ ∃ introspect, json_loads w proc.2 = Ok introspect)
  ∧ (proc.1 = 0%Z → ∀ introspect, json_loads w proc.2 = Ok introspect →
       outcome = _gen_ninja_dyndep_file (set_order w) "pkg" introspect
                   (parse "/stage") (parse "pkg.dyndep") fs).
Proof.
  apply (C8_introspection_failure_writes_nothing failing_world "pkg"
           (parse "build/pkg") (parse "/stage") (parse "pkg.dyndep")
           (parse "pkg_introspect.json") {[ "pkg.dyndep" := "stale" ]}
           "/usr/bin/meson" (parse "build/pkg")).
  - reflexivity.
  - reflexivity.
Defined.

End DyndepProofs.

(** ** ninja_backend.py: order of the emitted edges *)

Module NinjaBackendProofs.
Import Pathlib NinjaBackend.
Local Open Scope string_scope.

Lemma builds_app st1 st2 : builds (st1 ++ st2) = (builds st1 ++ builds st2)%list.
Proof. apply omap_app. Qed.

Lemma builds_of_rule_app r st1 st2 :
  builds_of_rule r (st1 ++ st2)
  = (builds_of_rule r st1 ++ builds_of_rule r st2)%list.
Proof. unfold builds_of_rule. by rewrite builds_app, filter_app. Qed.

(** *** The variables the writer writes *)

Lemma write_variables_ok (vars : list (string * PyVal)) :
  Forall (λ kv, writable kv.2) vars → (write_variables vars).2 = Ok tt.
Proof.
  induction 1 as [|[key val] vars [text Htext] _ IH]; [reflexivity|].
  cbn [write_variables]. simpl in Htext. rewrite Htext. by destruct text.
Qed.

Lemma written_elim (vars : list (string * PyVal)) key val' :
  (key, val') ∈ (write_variables vars).1 →
  ∃ val text, (key, val) ∈ vars ∧ variable_text val = Ok (Some text)
              ∧ val' = PStr text.
Proof.
  induction vars as [|[k v] vars IH]; cbn [write_variables].
  - intros Hin. by apply elem_of_nil in Hin.
  - destruct (variable_text v) as [[text|]|e] eqn:Hv; cbn [fst].
    + intros Hin. apply elem_of_cons in Hin as [[= -> ->]|Hin].
      * exists v, text. split; [apply list_elem_of_here|done].
      * destruct (IH Hin) as (val & t & Hval & Ht & ->).
        exists val, t. split; [by apply list_elem_of_further|done].
    + intros Hin. destruct (IH Hin) as (val & t & Hval & Ht & ->).
      exists val, t. split; [by apply list_elem_of_further|done].
    + intros Hin. by apply elem_of_nil in Hin.
Qed.

Lemma written_intro (vars : list (string * PyVal)) key val text :
  (write_variables vars).2 = Ok tt →
  (key, val) ∈ vars → variable_text val = Ok (Some text) →
  (key, PStr text) ∈ (write_variables vars).1.
Proof.
  induction vars as [|[k v] vars IH]; cbn [write_variables].
  - intros _ Hin. by apply elem_of_nil in Hin.
  - destruct (variable_text v) as [[t|]|e] eqn:Hv; cbn [fst snd].
    + intros Hok Hin Htext. apply elem_of_cons in Hin as [[= -> ->]|Hin].
      * rewrite Hv in Htext. injection Htext as ->. apply list_elem_of_here.
      * apply list_elem_of_further. by apply IH.
    + intros Hok Hin Htext. apply elem_of_cons in Hin as [[= -> ->]|Hin].
      * rewrite Hv in Htext. discriminate Htext.
      * by apply IH.
    + intros Hok. discriminate Hok.
Qed.

Lemma writable_str s : writable (PStr s).
Proof. by eexists. Qed.

(** Exposing, step by step, what the writes of [add_meson_package] return. *)
Ltac expose_writes :=
  cbn [variables outputs rule inputs implicit order_only implicit_outputs];
  simpl (write_variables []); cbv beta iota; cbn [fst snd].

Ltac split_writes :=
  repeat match goal with
  | |- context [match (write_variables ?vars).2 with _ => _ end] =>
      destruct ((write_variables vars).2) as [[]|?]; cbv beta iota; cbn [fst snd]
  end.

(** The configure edge is the first statement [add_meson_package] writes
    after its blank line, whether or not writing variables fails later. *)
Lemma add_meson_package_setup package opts items st :
  build_opts package = Ok opts →
  py_iter (deps package) = Ok items →
  ∃ r setup rest,
    add_meson_package package st
      = ((st ++ Newline :: BuildStmt setup :: rest)%list, r)
    ∧ rule setup = "meson_setup"
    ∧ order_only setup = (λ dep, install_stamp (format dep)) <$> items
    ∧ builds_of_rule "meson_setup" rest = [].
Proof.
  intros Hopts Hitems. unfold add_meson_package.
  unfold mbind, prog_bind, lift, newline, build. rewrite Hopts, Hitems.
  expose_writes. split_writes.
  all: eexists _, _, _; split; [rewrite <- ?(assoc_L (++)); reflexivity|].
  all: split; [reflexivity|]; split; reflexivity.
Qed.

Lemma package_writes package opts :
  build_opts package = Ok opts → package_writable package →
  (write_variables [("builddir", __getattr__ package "build_dir");
                    ("sourcedir", __getattr__ package "src_dir");
                    ("name", PStr (name package)); ("opts", opts)]).2 = Ok tt
  ∧ (write_variables [("name", PStr (name package));
                      ("builddir", __getattr__ package "build_dir");
                      ("stagingdir", __getattr__ package "staging_dir");
                      ("json", PStr (introspect_json (name package)))]).2 = Ok tt
  ∧ (write_variables [("builddir", __getattr__ package "build_dir");
                      ("name", PStr (name package));
                      ("dyndep", PStr (dyndep_file (name package)))]).2 = Ok tt
  ∧ (write_variables [("builddir", __getattr__ package "build_dir");
                      ("name", PStr (name package));
                      ("stagingdir", __getattr__ package "staging_dir");
                      ("dyndep", PStr (dyndep_file (name package)))]).2 = Ok tt.
Proof.
  intros Hopts (Hb & Hs & Hg & Ho). rewrite Hopts in Ho.
  repeat split; apply write_variables_ok;
    repeat apply Forall_cons_2; try apply Forall_nil_2;
    assumption || apply writable_str.
Qed.

(** The statements one successful call of [add_meson_package] appends,
    given the options and the dependency items it read. *)
Lemma add_meson_package_ok package opts items st :
  build_opts package = Ok opts →
  py_iter (deps package) = Ok items →
  package_writable package →
  ∃ setup rest,
    add_meson_package package st
      = ((st ++ Newline :: BuildStmt setup :: rest)%list, Ok tt)
    ∧ rule setup = "meson_setup"
    ∧ order_only setup = (λ dep, install_stamp (format dep)) <$> items
    ∧ builds_of_rule "meson_setup" rest = []
    ∧ builds_of_rule "phony" rest
      = [ {| outputs := [setup_phony (name package)]; rule := "phony";
             inputs := [format (__getattr__ package "build_dir") ++ "/build.ninja"];
             implicit := []; order_only := []; variables := [];
             implicit_outputs := [] |};
          {| outputs := [compile_phony (name package)]; rule := "phony";
             inputs := [compile_stamp (name package)];
             implicit := []; order_only := []; variables := [];
             implicit_outputs := [] |};
          {| outputs := [install_phony (name package)]; rule := "phony";
             inputs := [install_stamp (name package)];
             implicit := []; order_only := []; variables := [];
             implicit_outputs := [] |} ].
Proof.
  intros Hopts Hitems Hwritable.
  destruct (package_writes package opts Hopts Hwritable) as (H1 & H2 & H3 & H4).
  unfold add_meson_package.
  unfold mbind, prog_bind, lift, newline, build. rewrite Hopts, Hitems.
  expose_writes. rewrite H1, H2, H3, H4. cbv beta iota. cbn [fst snd].
  eexists _, _. split; [rewrite <- ?(assoc_L (++)); reflexivity|].
  split; [reflexivity|]. split; [reflexivity|]. split; reflexivity.
Qed.

(** A configuration with a non-empty [build_opts] list: [Package.build_opts]
    appends the list as one item, [' '.join] meets a list and raises
    [TypeError], after the configure line and the [name] variable are
    written (the directories are [None] and not written). *)
Lemma add_meson_package_nested_opts :
  add_meson_package
    {| _name := "app";
       _config := <[ "build_opts" := PList [PStr "-Dfoo=bar"] ]>
                    {[ "config_file" := PStr "app.config" ]} |} []
  = ([Newline;
      BuildStmt {| outputs := ["None/build.ninja"]; rule := "meson_setup";
                   inputs := []; implicit := []; order_only := [];
                   variables := [("name", PStr "app")];
                   implicit_outputs := [] |}],
     Raise TypeError).
Proof. vm_compute. reflexivity. Qed.

(** A call of [add_meson_package] that returns has read the options and
    the dependency items and has written the variables of its four
    non-alias edges without error. *)
Lemma add_meson_package_inv package st st' :
  add_meson_package package st = (st', Ok tt) →
  ∃ opts items,
    build_opts package = Ok opts
    ∧ py_iter (deps package) = Ok items
    ∧ (write_variables [("builddir", __getattr__ package "build_dir");
                        ("sourcedir", __getattr__ package "src_dir");
                        ("name", PStr (name package)); ("opts", opts)]).2 = Ok tt
    ∧ (write_variables [("name", PStr (name package));
                        ("builddir", __getattr__ package "build_dir");
                        ("stagingdir", __getattr__ package "staging_dir");
                        ("json", PStr (introspect_json (name package)))]).2 = Ok tt
    ∧ (write_variables [("builddir", __getattr__ package "build_dir");
                        ("name", PStr (name package));
                        ("dyndep", PStr (dyndep_file (name package)))]).2 = Ok tt
    ∧ (write_variables [("builddir", __getattr__ package "build_dir");
                        ("name", PStr (name package));
                        ("stagingdir", __getattr__ package "staging_dir");
                        ("dyndep", PStr (dyndep_file (name package)))]).2 = Ok tt.
Proof.
  unfold add_meson_package.
  unfold mbind, prog_bind, lift, newline, build.
  destruct (build_opts package) as [opts|e]; [|intros [=]].
  destruct (py_iter (deps package)) as [items|e]; [|intros [=]].
  expose_writes.
  repeat match goal with
  | |- context [match (write_variables ?vars).2 with _ => _ end] =>
      let H := fresh "Hw" in
      destruct ((write_variables vars).2) as [[]|?] eqn:H;
      cbv beta iota; cbn [fst snd]; [|intros [=]]
  end.
  intros _. exists opts, items. repeat split; assumption.
Qed.

(** The options of a package are a list, so that a text is written for
    them whenever writing them does not raise. *)
Lemma build_opts_text package opts (vars : list (string * PyVal)) key :
  build_opts package = Ok opts →
  (write_variables vars).2 = Ok tt →
  (key, opts) ∈ vars →
  ∃ text, variable_text opts = Ok (Some text).
Proof.
  intros Hopts Hok Hin.
  assert (Hlist : ∃ l, opts = PList l).
  { unfold build_opts in Hopts.
    destruct (_config package !! "config_file"); [|discriminate Hopts].
    injection Hopts as <-. by eexists. }
  destruct Hlist as [l ->].
  assert (Htext : ∃ text, variable_text (PList l) = Ok text).
  { clear Hopts. induction vars as [|[k v] vars IH].
    - by apply elem_of_nil in Hin.
    - cbn [write_variables] in Hok.
      apply elem_of_cons in Hin as [[= <- <-]|Hin].
      + destruct (variable_text (PList l)) as [text|e]; [by eexists|].
        discriminate Hok.
      + destruct (variable_text v) as [[text|]|e]; cbn [snd] in Hok;
          [by apply IH|by apply IH|discriminate Hok]. }
  destruct Htext as [text Htext]. cbn [variable_text] in *.
  destruct (join_items (List.filter truthy l)); [by eexists|discriminate Htext].
Qed.

Lemma build_opts_ok package config_file :
  _config package !! "config_file" = Some config_file →
  ∃ opts, build_opts package = Ok opts.
Proof. intros Hcf. unfold build_opts. rewrite Hcf. by eexists. Qed.

Lemma install_stamp_names (D : list string) :
  (λ dep, install_stamp (format dep)) <$> (PStr <$> D) = install_stamp <$> D.
Proof.
  induction D as [|d D IH]; [reflexivity|].
  rewrite !fmap_cons. by f_equal.
Qed.

(** Without a [config_file] the options cannot be built: the call raises
    after its first blank line, and no edge is emitted. *)
Lemma add_meson_package_no_config_file package st :
  _config package !! "config_file" = None →
  add_meson_package package st
  = ((st ++ [Newline])%list, Raise (KeyError "config_file")).
Proof.
  intros Hcf. unfold add_meson_package, mbind, prog_bind, lift, newline.
  unfold build_opts. rewrite Hcf. reflexivity.
Qed.




(** C7, as stated, fails on the kind of dependency: the linker-script edge
    of the image [app] has no order-only dependency at all; the install
    stamps of [libshield] and of [app] are its implicit inputs. *)
Lemma C7_counterexample :
  let st := (add_gen_ldscript_target (λ p, p) "app" (parse "app.lds")
               (parse "app.lds.in") (parse "layout.json") None []).1 in
  order_only <$> builds st = [[]]
  ∧ implicit <$> builds st = [["libshield_install.stamp"; "app_install.stamp"]]
  ∧ ("libshield_install.stamp" ∉ concat (order_only <$> builds st)).
Proof.
  cbv zeta. split; [vm_compute; reflexivity|]. split; [vm_compute; reflexivity|].
  assert (Hnil : concat (order_only <$> builds
             (add_gen_ldscript_target (λ p, p) "app" (parse "app.lds")
                (parse "app.lds.in") (parse "layout.json") None []).1) = [])
    by (vm_compute; reflexivity).
  rewrite Hnil. apply not_elem_of_nil.
Qed.

(** C7 (amended): every emitted linker-script edge has no order-only
    dependency; its implicit inputs are the install stamp of the fixed
    [libshield] package followed by the install stamp of the image's package
    (the package name given for the image when there is a non-empty one,
    the image's own name otherwise), except that for the [dummy]
    pseudo-image only the [libshield] install stamp remains. *)
Theorem C7_ldscript_edge_implicit_inputs (resolve : Path → Path) (name : string)
    (output template layout : Path) (package_name : option string)
    (st : list Stmt) :
  ∃ edge,
    add_gen_ldscript_target resolve name output template layout package_name st
      = ((st ++ [Newline; BuildStmt edge])%list, Ok tt)
    ∧ rule edge = "internal"
    ∧ outputs edge = [str (resolve output)]
    ∧ inputs edge = [str (resolve layout)]
    ∧ order_only edge = []
    ∧ implicit edge
      = (if decide (name = "dummy") then ["libshield_install.stamp"]
         else ["libshield_install.stamp";
               install_stamp (match package_name with
                              | Some EmptyString | None => name
                              | Some package_name => package_name
                              end)]).
Proof.
  eexists. split; [|split; [|split; [|split; [|split]]]].
  - unfold add_gen_ldscript_target, mbind, prog_bind, newline, build.
    rewrite <- (assoc_L (++)). reflexivity.
  - reflexivity.
  - reflexivity.
  - reflexivity.
  - reflexivity.
  - simpl. destruct (decide (name = "dummy")) as [->|Hne].
    + by rewrite decide_False by (intros H; by apply H).
    + rewrite decide_True by done. simpl.
      by destruct package_name as [[|c pn]|].
Qed.

End NinjaBackendProofs.

(** ** task_meta.py: further properties of the bit-packed fields *)

Module TaskMetaExtra.
Import TaskMeta TaskMetaProofs.
Local Open Scope Z_scope.

Lemma testbit_mod_2_16 a i :
  0 <= i → Z.testbit (a mod 2 ^ 16) i = (i <? 16) && Z.testbit a i.
Proof. intros Hi. by rewrite Z.testbit_mod_pow2 by lia. Qed.

(** The [id] setter never rejects an id: whatever integer is passed, on a
    32-bit field both stores succeed, the id read back is the id modulo 2^16
    (wider and negative ids are cut to their low 16 bits), and the bits
    outside 13..28 keep their value. *)
Theorem set_id_truncates (raw new_id : Z) :
  u32 raw →
  ∃ raw', set_id raw new_id = Ok raw'
    ∧ u32 raw'
    ∧ id raw' = new_id mod 2 ^ 16
    ∧ (∀ i, 0 <= i → ¬ (13 <= i < 29) → Z.testbit raw' i = Z.testbit raw i).
Proof.
  intros Hraw. exists (id_written raw new_id).
  destruct (set_id_ok raw new_id Hraw) as [Hset Hu].
  split; [exact Hset|]. split; [exact Hu|]. split.
  - unfold id. apply Z.bits_inj'. intros i Hi.
    unfold _id_shift at 1. rewrite Z.shiftr_spec, Z.land_spec by lia.
    rewrite testbit_id_written, testbit_id_mask, testbit_mod_2_16 by lia.
    destruct (Z.leb_spec 13 (i + 13)); [|lia]. simpl.
    replace (i + 13 - 13) with i by lia.
    destruct (Z.ltb_spec (i + 13) 29), (Z.ltb_spec i 16); simpl;
      lia || by rewrite ?andb_true_r, ?andb_false_r.
  - intros i Hi Hout. rewrite testbit_id_written by lia.
    destruct (Z.leb_spec 13 i), (Z.ltb_spec i 29); simpl; lia || reflexivity.
Qed.

Lemma set_id_truncates_witness :
  ∃ raw', set_id 0x00000001 0x12345 = Ok raw'
    ∧ u32 raw'
    ∧ id raw' = 0x12345 mod 2 ^ 16
    ∧ (∀ i, 0 <= i → ¬ (13 <= i < 29) → Z.testbit raw' i = Z.testbit 0x00000001 i).
Proof. apply (set_id_truncates 0x00000001 0x12345). unfold u32. lia. Defined.

Lemma id_written_twice raw a b :
  id_written (id_written raw a) b = id_written raw b.
Proof.
  apply Z.bits_inj'. intros i Hi. rewrite !testbit_id_written by lia.
  by destruct ((13 <=? i) && (i <? 29)).
Qed.

(** Setting the id twice is setting it once to the last value: the first id
    leaves no trace in the field. *)
Theorem set_id_last_wins (raw a b : Z) :
  u32 raw → set_id raw a ≫= (λ raw', set_id raw' b) = set_id raw b.
Proof.
  intros Hraw.
  destruct (set_id_ok raw a Hraw) as [Ha Hua].
  destruct (set_id_ok raw b Hraw) as [Hb _].
  destruct (set_id_ok (id_written raw a) b Hua) as [Hab _].
  rewrite Ha, Hb. simpl. by rewrite Hab, id_written_twice.
Qed.

Lemma set_id_last_wins_witness :
  set_id 0xffffffff 7 ≫= (λ raw', set_id raw' 9) = set_id 0xffffffff 9.
Proof. apply (set_id_last_wins 0xffffffff 7 9). unfold u32. lia. Defined.

(** The two setters of the job flags commute: for a valid exit mode, exit
    mode then autostart leaves the same field as autostart then exit mode. *)
Theorem job_flags_setters_commute (raw : Z) (mode : string) (ordinal : Z)
    (auto : bool) :
  u32 raw → dict_get _exit_mode mode = Ok ordinal →
  set_exit_mode raw mode ≫= (λ raw', set_autostart_mode raw' auto)
  = set_autostart_mode raw auto ≫= (λ raw', set_exit_mode raw' mode).
Proof.
  intros Hraw Hmode.
  destruct (set_exit_mode_ok raw mode ordinal Hraw Hmode) as [He Hue].
  destruct (set_autostart_mode_ok raw auto Hraw) as [Ha Hua].
  destruct (set_autostart_mode_ok _ auto Hue) as [Hea _].
  destruct (set_exit_mode_ok _ mode ordinal Hua Hmode) as [Hae _].
  rewrite He, Ha. simpl. rewrite Hea, Hae. f_equal.
  apply Z.bits_inj'. intros i Hi.
  rewrite testbit_autostart_written, !testbit_exit_written,
    testbit_autostart_written by (done || lia).
  destruct (Z.eqb_spec i 0) as [->|Hne]; [reflexivity|].
  by destruct ((1 <=? i) && (i <? 4)).
Qed.

Lemma job_flags_setters_commute_witness :
  set_exit_mode 0x00000003 "reset" ≫= (λ raw', set_autostart_mode raw' false)
  = set_autostart_mode 0x00000003 false ≫= (λ raw', set_exit_mode raw' "reset").
Proof.
  apply (job_flags_setters_commute 0x00000003 "reset" 4 false).
  - unfold u32. lia.
  - reflexivity.
Defined.

Lemma dict_get_exit_mode mode :
  (In mode ["norestart"; "restart"; "panic"; "periodic"; "reset"]%string →
     ∃ ordinal, dict_get _exit_mode mode = Ok ordinal)
  ∧ (¬ In mode ["norestart"; "restart"; "panic"; "periodic"; "reset"]%string →
     dict_get _exit_mode mode = Raise (KeyError mode)).
Proof.
  unfold _exit_mode. cbn [dict_get In]. split.
  - intros H. repeat (destruct H as [<-|H]; [by eexists|]). destruct H.
  - intros H.
    repeat match goal with
    | |- context [String.eqb ?k mode] =>
        destruct (String.eqb_spec k mode) as [Heq|_];
          [exfalso; apply H; rewrite <- Heq; simpl; tauto|]
    end.
    reflexivity.
Qed.

(** The exit-mode setter accepts exactly the five keys of its dictionary:
    on a 32-bit field it succeeds for each of them, and for any other string
    it raises [KeyError] on that string. *)
Theorem set_exit_mode_keys (raw : Z) (mode : string) :
  u32 raw →
  (In mode ["norestart"; "restart"; "panic"; "periodic"; "reset"]%string →
     ∃ raw', set_exit_mode raw mode = Ok raw' ∧ u32 raw')
  ∧ (¬ In mode ["norestart"; "restart"; "panic"; "periodic"; "reset"]%string →
     set_exit_mode raw mode = Raise (KeyError mode)).
Proof.
  intros Hraw. destruct (dict_get_exit_mode mode) as [Hin Hout]. split.
  - intros H. destruct (Hin H) as [ordinal Hmode].
    destruct (set_exit_mode_ok raw mode ordinal Hraw Hmode) as [Hset Hu].
    by exists (exit_written raw ordinal).
  - intros H. unfold set_exit_mode. by rewrite (Hout H).
Qed.

Lemma set_exit_mode_keys_witness :
  (In "Panic"%string ["norestart"; "restart"; "panic"; "periodic"; "reset"]%string →
     ∃ raw', set_exit_mode 0 "Panic" = Ok raw' ∧ u32 raw')
  ∧ (¬ In "Panic"%string ["norestart"; "restart"; "panic"; "periodic"; "reset"]%string →
     set_exit_mode 0 "Panic" = Raise (KeyError "Panic")).
Proof. apply (set_exit_mode_keys 0 "Panic"). unfold u32. lia. Defined.

(** The getters in arithmetic: whatever the field holds, the id is the
    quotient by 2^13 modulo 2^16, the exit mode the quotient by 2 modulo 8,
    and the autostart flag the parity; so the id is below 2^16. *)
Theorem getters_arithmetic (raw : Z) :
  id raw = (raw / 2 ^ 13) mod 2 ^ 16
  ∧ 0 <= id raw < 2 ^ 16
  ∧ exit_mode raw = (raw / 2) mod 8
  ∧ autostart_mode raw = Z.odd raw.
Proof.
  assert (Hid : id raw = (raw / 2 ^ 13) mod 2 ^ 16).
  { unfold id. apply Z.bits_inj'. intros i Hi.
    unfold _id_shift at 1. rewrite Z.shiftr_spec, Z.land_spec by lia.
    rewrite testbit_id_mask, testbit_mod_2_16, Z.div_pow2_bits by lia.
    destruct (Z.leb_spec 13 (i + 13)); [|lia]. simpl.
    destruct (Z.ltb_spec (i + 13) 29), (Z.ltb_spec i 16); simpl;
      lia || by rewrite ?andb_true_r, ?andb_false_r. }
  split; [exact Hid|]. split; [|split].
  - rewrite Hid. apply Z.mod_pos_bound. lia.
  - unfold exit_mode. change 0x7 with (Z.ones 3).
    rewrite Z.land_ones, Z.shiftr_div_pow2 by lia. reflexivity.
  - by rewrite autostart_mode_bit, Z.bit0_odd.
Qed.

Lemma testbit_b2z (b : bool) i :
  0 <= i → Z.testbit (Z.b2z b) i = (i =? 0) && b.
Proof.
  intros Hi. destruct (Z.eqb_spec i 0) as [->|Hne]; simpl.
  - apply Z.b2z_bit0.
  - destruct b; simpl; [|apply Z.bits_0].
    apply (Z.bits_above_log2 1 i); simpl; lia.
Qed.

Lemma lor_disjoint_add a b : Z.land a b = 0 → Z.lor a b = a + b.
Proof. intros H. pose proof (Z.add_lor_land a b) as Hadd. lia. Qed.

Lemma testbit_shifted_mode m i :
  0 <= i → 0 <= m <= 7 →
  Z.testbit (Z.shiftl m 1) i = (1 <=? i) && (i <? 4) && Z.testbit m (i - 1).
Proof.
  intros Hi Hm. rewrite Z.shiftl_spec by lia.
  destruct (Z.leb_spec 1 i); simpl; [|apply Z.testbit_neg_r; lia].
  destruct (Z.ltb_spec i 4); simpl; [reflexivity|].
  rewrite <- (Z.mod_small m (2 ^ 3)) by (change (2 ^ 3) with 8; lia).
  apply Z.mod_pow2_bits_high. lia.
Qed.

Lemma exit_mode_split raw :
  u32 raw → raw = Z.land raw 0xfffffff1 + 2 * exit_mode raw.
Proof.
  intros Hraw. pose proof (exit_mode_range raw) as Hrange.
  replace (2 * exit_mode raw) with (Z.shiftl (exit_mode raw) 1)
    by (rewrite Z.shiftl_mul_pow2 by lia; change (2 ^ 1) with 2; lia).
  rewrite <- lor_disjoint_add.
  - apply Z.bits_inj'. intros i Hi.
    rewrite Z.lor_spec, Z.land_spec, testbit_fffffff1, testbit_shifted_mode
      by (done || lia).
    destruct (Z.eqb_spec i 0) as [->|Hne]; simpl.
    { by rewrite andb_true_r, orb_false_r. }
    destruct (Z.leb_spec 1 i); [|lia]. simpl.
    destruct (Z.ltb_spec i 4); simpl.
    + destruct (Z.leb_spec 4 i); [lia|]. simpl.
      rewrite andb_false_r, testbit_exit_mode by lia. simpl.
      replace (i - 1 + 1) with i by lia.
      destruct (Z.ltb_spec (i - 1) 3); [|lia]. by rewrite andb_true_r.
    + destruct (Z.leb_spec 4 i); [|lia]. simpl. rewrite orb_false_r.
      destruct (Z.ltb_spec i 32); [by rewrite andb_true_r|].
      rewrite andb_false_r. by apply u32_testbit_high.
  - apply Z.bits_inj'. intros i Hi.
    rewrite Z.land_spec, Z.land_spec, testbit_fffffff1, testbit_shifted_mode,
      Z.bits_0 by (done || lia).
    destruct (Z.eqb_spec i 0) as [->|Hne]; simpl; [by rewrite andb_false_r|].
    destruct (Z.leb_spec 1 i); [|lia]. simpl.
    destruct (Z.ltb_spec i 4), (Z.leb_spec 4 i); simpl; try lia;
      by rewrite ?andb_false_r.
Qed.

(** The exit-mode setter in arithmetic: on a 32-bit field it adds twice the
    difference between the new ordinal and the exit mode read before; the
    autostart setter replaces the parity of the field. *)
Theorem setters_arithmetic (raw : Z) (mode : string) (ordinal : Z) (auto : bool) :
  u32 raw → dict_get _exit_mode mode = Ok ordinal →
  set_exit_mode raw mode = Ok (raw + 2 * (ordinal - exit_mode raw))
  ∧ set_autostart_mode raw auto = Ok (raw - Z.b2z (Z.odd raw) + Z.b2z auto).
Proof.
  intros Hraw Hmode.
  destruct (set_exit_mode_ok raw mode ordinal Hraw Hmode) as [-> _].
  destruct (set_autostart_mode_ok raw auto Hraw) as [-> _].
  pose proof (exit_mode_ordinal _ _ Hmode) as Hord.
  split; f_equal.
  - pose proof (exit_mode_split raw Hraw) as Hsplit.
    unfold exit_written.
    assert (Hland : Z.land ordinal 0x7 = ordinal).
    { change 0x7 with (Z.ones 3). rewrite Z.land_ones by lia.
      apply Z.mod_small. change (2 ^ 3) with 8. lia. }
    rewrite Hland, lor_disjoint_add.
    + rewrite Z.shiftl_mul_pow2 by lia. change (2 ^ 1) with 2. lia.
    + apply Z.bits_inj'. intros i Hi.
      rewrite Z.land_spec, Z.land_spec, testbit_fffffff1, testbit_shifted_mode,
        Z.bits_0 by (done || lia).
      destruct (Z.eqb_spec i 0) as [->|Hne]; simpl; [by rewrite andb_false_r|].
      destruct (Z.leb_spec 1 i); [|lia]. simpl.
      destruct (Z.ltb_spec i 4), (Z.leb_spec 4 i); simpl; try lia;
        by rewrite ?andb_false_r.
  - unfold autostart_written.
    assert (Hlow : Z.land raw 0xfffffffe = raw - Z.b2z (Z.odd raw)).
    { assert (Hsplit : raw = Z.land raw 0xfffffffe + Z.b2z (Z.odd raw)).
      { rewrite <- lor_disjoint_add.
        - apply Z.bits_inj'. intros i Hi.
          rewrite Z.lor_spec, Z.land_spec, testbit_fffffffe, testbit_b2z by lia.
          destruct (Z.eqb_spec i 0) as [->|Hne].
          + rewrite Z.bit0_odd. by destruct (Z.odd raw).
          + destruct (Z.leb_spec 1 i); [|lia].
            destruct (Z.ltb_spec i 32).
            * by destruct (Z.testbit raw i).
            * rewrite (u32_testbit_high raw i) by (done || lia). reflexivity.
        - apply Z.bits_inj'. intros i Hi.
          rewrite !Z.land_spec, testbit_fffffffe, testbit_b2z, Z.bits_0 by lia.
          destruct (Z.eqb_spec i 0) as [->|Hne].
          + by destruct (Z.testbit raw 0), (Z.odd raw).
          + by destruct (Z.testbit raw i), (1 <=? i), (i <? 32). }
      lia. }
    assert (Hbit : Z.land (if auto then JOB_FLAG_START_AUTO
                           else JOB_FLAG_START_NOAUTO) 0x1 = Z.b2z auto)
      by (by destruct auto).
    rewrite Hbit, lor_disjoint_add; [lia|].
    apply Z.bits_inj'. intros i Hi.
    rewrite Z.land_spec, Z.land_spec, testbit_fffffffe, testbit_b2z, Z.bits_0
      by lia.
    destruct (Z.eqb_spec i 0) as [->|Hne]; simpl; by rewrite ?andb_false_r.
Qed.

Lemma setters_arithmetic_witness :
  set_exit_mode 0x00000003 "panic" = Ok (0x00000003 + 2 * (2 - exit_mode 0x00000003))
  ∧ set_autostart_mode 0x00000003 false
    = Ok (0x00000003 - Z.b2z (Z.odd 0x00000003) + Z.b2z false).
Proof.
  apply (setters_arithmetic 0x00000003 "panic" 2 false).
  - unfold u32. lia.
  - reflexivity.
Defined.

End TaskMetaExtra.

(** ** meson_package_dyndep.py: further properties *)

Module DyndepExtra.
Import Pathlib Dyndep DyndepProofs.
Local Open Scope string_scope.

(** *** The source list *)

Lemma foldl_extend_target_sources groups acc :
  foldl extend_target_sources acc groups
  = (acc ++ (groups ≫= λ g, default [] (sources g)
                            ++ default [] (generated_sources g)))%list.
Proof.
  revert acc. induction groups as [|g groups IH]; intros acc; simpl.
  - by rewrite app_nil_r.
  - rewrite IH. unfold extend_target_sources.
    destruct (sources g), (generated_sources g); simpl;
      by rewrite <- ?(assoc_L (++)), ?app_nil_r.
Qed.

Lemma foldl_extend_target ts acc :
  foldl extend_target acc ts
  = (acc ++ (ts ≫= λ t, default [] (target_sources t)
                          ≫= λ g, default [] (sources g)
                                  ++ default [] (generated_sources g)))%list.
Proof.
  revert acc. induction ts as [|t ts IH]; intros acc; simpl.
  - by rewrite app_nil_r.
  - rewrite IH. unfold extend_target.
    destruct (target_sources t) as [groups|]; simpl.
    + by rewrite foldl_extend_target_sources, <- (assoc_L (++)).
    + reflexivity.
Qed.

(** The loops collect the files in order: target after target, group after
    group, the [sources] of a group before its [generated_sources], a
    missing key counting as an empty list; files listed twice stay twice. *)
Theorem package_sources_in_order (introspect : Introspection) :
  package_sources introspect
  = targets introspect ≫= λ t,
      default [] (target_sources t) ≫= λ g,
        (default [] (sources g) ++ default [] (generated_sources g))%list.
Proof. unfold package_sources. by rewrite foldl_extend_target. Qed.

(** *** Sizes of the sets *)

Lemma size_list_to_set_le `{Countable A} (l : list A) :
  (size (list_to_set l : gset A) ≤ List.length l)%nat.
Proof.
  induction l as [|x l IH].
  - rewrite list_to_set_nil, size_empty. simpl. lia.
  - rewrite list_to_set_cons, size_union_alt, size_singleton. simpl.
    assert (Hsub : (list_to_set l ∖ {[x]} : gset A) ⊆ list_to_set l)
      by apply subseteq_difference_l, reflexivity.
    apply subseteq_size in Hsub. lia.
Qed.

(** The compile step has one implicit output per installed file; the install
    step has at most as many implicit outputs (destinations that differ only
    in their first character, or only by repeated separators, are staged at
    the same path); the compile step's implicit inputs are at most the
    listed build-system and source files. *)
Theorem dyndep_sets_sizes (introspect : Introspection) (stagingdir : Path) :
  let sets := dyndep_sets introspect stagingdir in
  size (compile_implicit_outputs sets) = size (installed introspect)
  ∧ size (install_implicit_inputs sets) = size (installed introspect)
  ∧ (size (install_implicit_outputs sets) ≤ size (installed introspect))%nat
  ∧ (size (compile_implicit_inputs sets)
     ≤ List.length (buildsystem_files introspect)
       + List.length (package_sources introspect))%nat.
Proof.
  intros sets.
  assert (Hout : size (compile_implicit_outputs sets) = size (installed introspect)).
  { unfold sets. rewrite compile_implicit_outputs_dom. apply size_dom. }
  split; [exact Hout|]. split; [exact Hout|]. split.
  - unfold sets. simpl.
    etrans; [apply size_list_to_set_le|].
    by rewrite !length_fmap, length_map_to_list.
  - unfold sets. simpl.
    etrans; [apply subseteq_size, subseteq_difference_l; reflexivity|].
    etrans; [apply size_list_to_set_le|]. by rewrite length_app.
Qed.

(** *** Destinations that leave the staging directory *)

Lemma parse_root_sep rest : root (parse (String sep rest)) ≠ EmptyString.
Proof.
  unfold parse, splitroot. rewrite Ascii.eqb_refl.
  by destruct (Nat.eqb _ 2).
Qed.

(** A destination that begins with two separators is not staged: without
    its first character it is still anchored, and joining it to the staging
    directory gives the destination's own path, whatever the staging
    directory is. *)
Theorem double_separator_leaves_staging (introspect : Introspection)
    (stagingdir : Path) (k rest : string) :
  installed introspect !! k = Some (String sep (String sep rest)) →
  truediv stagingdir (slice_from_1 (String sep (String sep rest)))
  = parse (String sep rest)
  ∧ parse (String sep rest)
    ∈ install_implicit_outputs (dyndep_sets introspect stagingdir)
  ∧ root (parse (String sep rest)) ≠ EmptyString.
Proof.
  intros Hk.
  assert (Hjoin : truediv stagingdir (slice_from_1 (String sep (String sep rest)))
                  = parse (String sep rest)).
  { unfold truediv. cbn [slice_from_1].
    by rewrite decide_False by apply parse_root_sep. }
  split; [exact Hjoin|]. split; [|apply parse_root_sep].
  apply elem_of_install_implicit_outputs. eexists k, _. by split.
Qed.

Lemma double_separator_leaves_staging_witness :
  truediv (parse "/stage") (slice_from_1 "//usr/bin/C") = parse "/usr/bin/C"
  ∧ parse "/usr/bin/C"
    ∈ install_implicit_outputs
        (dyndep_sets {| buildsystem_files := []; targets := [];
                        installed := {[ "C" := "//usr/bin/C" ]} |}
           (parse "/stage"))
  ∧ root (parse "/usr/bin/C") ≠ EmptyString.
Proof.
  apply (double_separator_leaves_staging
           {| buildsystem_files := []; targets := [];
              installed := {[ "C" := "//usr/bin/C" ]} |}
           (parse "/stage") "C" "usr/bin/C").
  reflexivity.
Defined.

(** *** The declaration file *)

Lemma elements_iter_empty {A} `{Countable A} (o : SetIter A) :
  iter o (∅ : gset A) = [].
Proof. by apply iter_nil. Qed.

(** A package with nothing to declare (no build-system file, no source file
    in any target, nothing installed) still gets a declaration: the version
    line and the two blocks, without any implicit file and without the [|]
    markers. *)
Theorem empty_snapshot_declaration (order : SetOrder) (package : string)
    (introspect : Introspection) (stagingdir output : Path)
    (fs : gmap string string) :
  buildsystem_files introspect = [] →
  package_sources introspect = [] →
  installed introspect = ∅ →
  _gen_ninja_dyndep_file order package introspect stagingdir output fs
  = (<[str output :=
         "ninja_dyndep_version = 1" ++ nl
         ++ "build " ++ package ++ "_compile.stamp: dyndep" ++ nl
         ++ "  restat = 1" ++ nl
         ++ "build " ++ package ++ "_install.stamp: dyndep" ++ nl
         ++ "  restat = 1" ++ nl]> fs,
     Ok tt).
Proof.
  intros Hbs Hsrc Hinst.
  assert (Hco : compile_implicit_outputs (dyndep_sets introspect stagingdir) = ∅)
    by (by rewrite compile_implicit_outputs_dom, Hinst, dom_empty_L).
  assert (Hii : install_implicit_inputs (dyndep_sets introspect stagingdir) = ∅)
    by exact Hco.
  assert (Hci : compile_implicit_inputs (dyndep_sets introspect stagingdir) = ∅).
  { apply set_eq. intros x. rewrite elem_of_compile_implicit_inputs.
    rewrite <- elem_of_package_sources, Hbs, Hsrc. split.
    - intros [[Hx|Hx] _]; by apply elem_of_nil in Hx.
    - intros Hx. by apply not_elem_of_empty in Hx. }
  assert (Hio : install_implicit_outputs (dyndep_sets introspect stagingdir) = ∅).
  { apply set_eq. intros p. rewrite elem_of_install_implicit_outputs, Hinst.
    split; [|intros Hp; by apply not_elem_of_empty in Hp].
    intros (k & dest & Hk & _). by rewrite lookup_empty in Hk. }
  rewrite gen_ninja_dyndep_file_text. cbv zeta.
  rewrite Hco, Hii, Hci, Hio, !elements_iter_empty.
  unfold render_block, render_files. cbn [fmap list_fmap String.concat].
  do 2 f_equal. rewrite !append_assoc. reflexivity.
Qed.

Lemma empty_snapshot_declaration_witness :
  _gen_ninja_dyndep_file elements_order "pkg"
    {| buildsystem_files := [];
       targets := [ {| target_sources := None |};
                    {| target_sources :=
                         Some [ {| sources := None; generated_sources := Some [] |} ] |} ];
       installed := ∅ |}
    (parse "/stage") (parse "pkg.dyndep") ∅
  = (<[str (parse "pkg.dyndep") :=
         "ninja_dyndep_version = 1" ++ nl
         ++ "build " ++ "pkg" ++ "_compile.stamp: dyndep" ++ nl
         ++ "  restat = 1" ++ nl
         ++ "build " ++ "pkg" ++ "_install.stamp: dyndep" ++ nl
         ++ "  restat = 1" ++ nl]> ∅,
     Ok tt).
Proof.
  apply (empty_snapshot_declaration elements_order "pkg"
           {| buildsystem_files := [];
              targets := [ {| target_sources := None |};
                           {| target_sources :=
                                Some [ {| sources := None;
                                          generated_sources := Some [] |} ] |} ];
              installed := ∅ |}
           (parse "/stage") (parse "pkg.dyndep") ∅); reflexivity.
Defined.


(** *** run_meson_package_dyndep *)


(** *** Listing order and staging *)

Lemma is_source_targets_perm i1 i2 x :
  targets i1 ≡ₚ targets i2 → is_source i1 x → is_source i2 x.
Proof.
  intros Hperm (t & gs & g & files & Ht & Hrest).
  exists t, gs, g, files. split; [by rewrite <- Hperm|exact Hrest].
Qed.

(** The four sets depend on which files are listed, not on how: two
    snapshots that list the same build-system files and the same targets in
    another order, and install the same files, get the same sets. *)
Theorem dyndep_sets_order_independent (i1 i2 : Introspection) (stagingdir : Path) :
  buildsystem_files i1 ≡ₚ buildsystem_files i2 →
  targets i1 ≡ₚ targets i2 →
  installed i1 = installed i2 →
  dyndep_sets i1 stagingdir = dyndep_sets i2 stagingdir.
Proof.
  intros Hbs Hts Hinst.
  assert (Hco : compile_implicit_outputs (dyndep_sets i1 stagingdir)
                = compile_implicit_outputs (dyndep_sets i2 stagingdir))
    by (by rewrite !compile_implicit_outputs_dom, Hinst).
  assert (Hci : compile_implicit_inputs (dyndep_sets i1 stagingdir)
                = compile_implicit_inputs (dyndep_sets i2 stagingdir)).
  { apply set_eq. intros x. rewrite !elem_of_compile_implicit_inputs, Hco, Hbs.
    split; intros [[Hx|Hx] Hnot]; (split; [|exact Hnot]);
      [by left|right|by left|right].
    - by apply (is_source_targets_perm i1 i2).
    - by apply (is_source_targets_perm i2 i1). }
  assert (Hio : install_implicit_outputs (dyndep_sets i1 stagingdir)
                = install_implicit_outputs (dyndep_sets i2 stagingdir)).
  { apply set_eq. intros p. by rewrite !elem_of_install_implicit_outputs, Hinst. }
  assert (Hii : install_implicit_inputs (dyndep_sets i1 stagingdir)
                = install_implicit_inputs (dyndep_sets i2 stagingdir))
    by exact Hco.
  destruct (dyndep_sets i1 stagingdir), (dyndep_sets i2 stagingdir).
  simpl in *. by subst.
Qed.

Lemma dyndep_sets_order_independent_witness :
  dyndep_sets snapshot_abs (parse "/stage")
  = dyndep_sets {| buildsystem_files := ["B"; "A"];
                   targets := targets snapshot_abs;
                   installed := installed snapshot_abs |} (parse "/stage").
Proof.
  apply (dyndep_sets_order_independent snapshot_abs
           {| buildsystem_files := ["B"; "A"];
              targets := targets snapshot_abs;
              installed := installed snapshot_abs |} (parse "/stage")).
  - apply perm_swap.
  - reflexivity.
  - reflexivity.
Defined.

Lemma parse_root_relative c rest :
  c ≠ sep → root (parse (String c rest)) = EmptyString.
Proof.
  intros Hc. unfold parse, splitroot.
  destruct (Ascii.eqb_spec c sep) as [Heq|_]; [by destruct Hc|reflexivity].
Qed.

(** A destination whose second character is not a separator is staged
    under the staging directory: the staged path keeps the root of the
    staging directory and its components begin with those of the staging
    directory. *)
Theorem staged_under_stagingdir (introspect : Introspection)
    (stagingdir : Path) (k : string) (c0 c1 : ascii) (rest : string) :
  installed introspect !! k = Some (String c0 (String c1 rest)) →
  c1 ≠ sep →
  ∃ p, p ∈ install_implicit_outputs (dyndep_sets introspect stagingdir)
       ∧ p = truediv stagingdir (String c1 rest)
       ∧ root p = root stagingdir
       ∧ parts stagingdir `prefix_of` parts p.
Proof.
  intros Hk Hc1. eexists. split; [|split; [reflexivity|]].
  - apply elem_of_install_implicit_outputs. eexists k, _. by split.
  - unfold truediv.
    rewrite decide_True by (by apply parse_root_relative).
    split; [reflexivity|]. by eexists.
Qed.

Lemma staged_under_stagingdir_witness :
  ∃ p, p ∈ install_implicit_outputs (dyndep_sets snapshot_abs (parse "/stage"))
       ∧ p = truediv (parse "/stage") "usr/bin/C"
       ∧ root p = root (parse "/stage")
       ∧ parts (parse "/stage") `prefix_of` parts p.
Proof.
  apply (staged_under_stagingdir snapshot_abs (parse "/stage") "C"
           "/"%char "u"%char "sr/bin/C").
  - reflexivity.
  - discriminate.
Defined.

End DyndepExtra.

(** ** ninja_backend.py: further properties of the generated graph *)

Module NinjaExtra.
Import Pathlib NinjaBackend NinjaBackendProofs NinjaTargets.
Local Open Scope string_scope.

(** *** Target names *)

Lemma chars_app (a b : string) :
  list_ascii_of_string (a ++ b)
  = (list_ascii_of_string a ++ list_ascii_of_string b)%list.
Proof.
  induction a as [|c a IH]; [reflexivity|].
  change (c :: list_ascii_of_string (a ++ b)
          = c :: (list_ascii_of_string a ++ list_ascii_of_string b)%list).
  by rewrite IH.
Qed.

Lemma chars_inj (a b : string) :
  list_ascii_of_string a = list_ascii_of_string b → a = b.
Proof.
  intros H. rewrite <- (string_of_list_ascii_of_string a),
    <- (string_of_list_ascii_of_string b). by rewrite H.
Qed.

Lemma rev_chars_app (a b s t : string) :
  a ++ s = b ++ t →
  (reverse (list_ascii_of_string s) ++ reverse (list_ascii_of_string a))%list
  = (reverse (list_ascii_of_string t) ++ reverse (list_ascii_of_string b))%list.
Proof.
  intros H. apply (f_equal (λ x, reverse (list_ascii_of_string x))) in H.
  by rewrite !chars_app, !reverse_app in H.
Qed.

Lemma rev_chars_inj (a b : string) :
  reverse (list_ascii_of_string a) = reverse (list_ascii_of_string b) → a = b.
Proof.
  intros H. apply chars_inj.
  rewrite <- (reverse_involutive (list_ascii_of_string a)),
    <- (reverse_involutive (list_ascii_of_string b)). by rewrite H.
Qed.

(** Two name-derived targets are equal only when they are the same kind of
    target of the same name. *)
Ltac target_clash H :=
  apply rev_chars_app in H; vm_compute reverse in H; cbn [app] in H;
  first [ discriminate H
        | injection H as H; apply rev_chars_inj in H; congruence ].

(** Target names are namespaced by the package name: the six name-derived
    targets of a package are pairwise distinct, and two packages with
    different names share none of them. *)
Theorem package_targets_namespaced (name1 name2 : string) :
  NoDup (package_targets name1)
  ∧ (name1 ≠ name2 →
     ∀ target, target ∈ package_targets name1 → target ∉ package_targets name2).
Proof.
  split.
  - unfold package_targets, setup_phony, dyndep_file, compile_stamp,
      compile_phony, install_stamp, install_phony.
    repeat (apply NoDup_cons; split;
            [rewrite ?elem_of_cons, elem_of_nil; intros Hin;
             repeat (destruct Hin as [Hin|Hin]; [target_clash Hin|]);
             exact Hin|]).
    apply NoDup_nil_2.
  - intros Hne target H1 H2.
    unfold package_targets, setup_phony, dyndep_file, compile_stamp,
      compile_phony, install_stamp, install_phony in H1, H2.
    rewrite ?elem_of_cons, elem_of_nil in H1, H2.
    repeat (destruct H1 as [H1|H1]; [|]); try (exact H1); subst target;
      repeat (destruct H2 as [H2|H2]; [target_clash H2|]); exact H2.
Qed.

(** *** References inside the graph *)

Ltac elem_of_concrete :=
  repeat first [ apply list_elem_of_here | apply list_elem_of_further ].

Lemma defined_app st1 st2 : defined (st1 ++ st2) = (defined st1 ++ defined st2)%list.
Proof. unfold defined. by rewrite builds_app, bind_app. Qed.

(** What one successful call of [add_meson_package] appends. *)
Lemma add_meson_package_new package opts items st :
  build_opts package = Ok opts →
  py_iter (deps package) = Ok items →
  package_writable package →
  ∃ new,
    add_meson_package package st = ((st ++ new)%list, Ok tt)
    ∧ defined new
      = [format (__getattr__ package "build_dir") ++ "/build.ninja";
         setup_phony (name package); dyndep_file (name package);
         introspect_json (name package); compile_stamp (name package);
         compile_phony (name package); install_stamp (name package);
         install_phony (name package)]
    ∧ Forall (λ b, Forall (λ x, x ∈ defined new
                                ∨ x ∈ (λ dep, install_stamp (format dep)) <$> items)
                          (references b))
             (builds new)
    ∧ Forall (λ b, ∀ file, ("dyndep", PStr file) ∈ variables b →
                file = dyndep_file (name package)
                ∧ order_only b = [file]
                ∧ (outputs b = [compile_stamp (name package)]
                   ∨ outputs b = [install_stamp (name package)]))
             (builds new)
    ∧ (∃ b, b ∈ builds new ∧ outputs b = [dyndep_file (name package)]
            ∧ rule b = "meson_package_dyndep"
            ∧ ("name", PStr (name package)) ∈ variables b)
    ∧ (∃ b, b ∈ builds new ∧ outputs b = [compile_stamp (name package)]
            ∧ ("dyndep", PStr (dyndep_file (name package))) ∈ variables b)
    ∧ (∃ b, b ∈ builds new ∧ outputs b = [install_stamp (name package)]
            ∧ ("dyndep", PStr (dyndep_file (name package))) ∈ variables b).
Proof.
  intros Hopts Hitems Hwritable.
  destruct (package_writes package opts Hopts Hwritable) as (H1 & H2 & H3 & H4).
  unfold add_meson_package.
  unfold mbind, prog_bind, lift, newline, build. rewrite Hopts, Hitems.
  expose_writes. rewrite H1, H2, H3, H4. cbv beta iota. cbn [fst snd].
  eexists. split; [rewrite <- !(assoc_L (++)); reflexivity|].
  split; [reflexivity|]. split; [|split; [|split; [|split]]].
  - cbn [builds omap list_omap app references inputs implicit order_only].
    repeat apply Forall_cons_2; try apply Forall_nil_2;
      try (left; elem_of_concrete);
      apply Forall_forall; intros x Hx; by right.
  - cbn [builds omap list_omap app].
    repeat apply Forall_cons_2; try apply Forall_nil_2; cbn [variables];
      intros file Hin; try (by apply elem_of_nil in Hin);
      apply written_elim in Hin as (val & text & Hin & Htext & [= ->]);
      rewrite ?elem_of_cons, elem_of_nil in Hin;
      repeat (destruct Hin as [Hin|Hin]; try discriminate Hin);
      try (exfalso; exact Hin);
      injection Hin as ->; injection Htext as <-; cbn; auto.
  - eexists. split; [eapply (list_elem_of_lookup_2 _ 2); reflexivity|].
    cbn [outputs rule variables]. repeat split.
    eapply written_intro; [exact H2|elem_of_concrete|reflexivity].
  - eexists. split; [eapply (list_elem_of_lookup_2 _ 3); reflexivity|].
    cbn [outputs rule variables]. split; [done|].
    eapply written_intro; [exact H3|elem_of_concrete|reflexivity].
  - eexists. split; [eapply (list_elem_of_lookup_2 _ 5); reflexivity|].
    cbn [outputs rule variables]. split; [done|].
    eapply written_intro; [exact H4|elem_of_concrete|reflexivity].
Qed.

Lemma for_each_packages (names : list string) (pkgs : list Package) st :
  Forall (λ p, is_Some (_config p !! "config_file")
               ∧ package_writable p
               ∧ ∃ D, deps p = PList (PStr <$> D) ∧ Forall (λ d, d ∈ names) D)
         pkgs →
  ∃ new,
    for_each pkgs add_meson_package st = ((st ++ new)%list, Ok tt)
    ∧ (∀ p, p ∈ pkgs → install_stamp (name p) ∈ defined new)
    ∧ Forall (λ b, Forall (λ x, x ∈ defined new ∨ x ∈ install_stamp <$> names)
                          (references b))
             (builds new).
Proof.
  revert st. induction pkgs as [|p pkgs IH]; intros st Hgood.
  - exists []. split; [by rewrite app_nil_r|]. split; [|apply Forall_nil_2].
    intros p Hp. by apply elem_of_nil in Hp.
  - apply Forall_cons in Hgood as [([cf Hcf] & Hwritable & D & Hdeps & HD) Hgood].
    destruct (build_opts_ok p cf Hcf) as [opts Hopts].
    assert (Hitems : py_iter (deps p) = Ok (PStr <$> D)) by (by rewrite Hdeps).
    destruct (add_meson_package_new p opts _ st Hopts Hitems Hwritable)
      as (new1 & Hrun1 & Hdef1 & Hrefs1 & _).
    destruct (IH (st ++ new1)%list Hgood) as (new2 & Hrun2 & Hstamps2 & Hrefs2).
    exists (new1 ++ new2)%list. split; [|split].
    + cbn [for_each]. unfold mbind at 1, prog_bind at 1.
      rewrite Hrun1, Hrun2. by rewrite (assoc_L (++)).
    + intros q Hq. rewrite defined_app, elem_of_app.
      apply elem_of_cons in Hq as [->|Hq]; [left|right; by apply Hstamps2].
      rewrite Hdef1. elem_of_concrete.
    + rewrite builds_app. apply Forall_app_2.
      * eapply Forall_impl; [exact Hrefs1|]. intros b Hb.
        eapply Forall_impl; [exact Hb|]. intros x [Hx|Hx].
        -- left. rewrite defined_app, elem_of_app. by left.
        -- right. rewrite install_stamp_names in Hx.
           apply list_elem_of_fmap in Hx as (d & -> & Hd).
           apply list_elem_of_fmap. exists d. split; [done|].
           rewrite Forall_forall in HD. by apply HD.
      * eapply Forall_impl; [exact Hrefs2|]. intros b Hb.
        eapply Forall_impl; [exact Hb|]. intros x [Hx|Hx]; [left|by right].
        rewrite defined_app, elem_of_app. by right.
Qed.

(** Emitting a set of packages whose dependency names all resolve to emitted
    packages, each with a [config_file] and with variables the writer can
    write (no [TypeError] in [Writer.variable]), succeeds and leaves no
    dangling reference: every input, implicit input and order-only
    dependency of every emitted edge is the output of an emitted edge. *)
Theorem packages_graph_closed (pkgs : list Package) :
  Forall (λ p, is_Some (_config p !! "config_file")
               ∧ package_writable p
               ∧ ∃ D, deps p = PList (PStr <$> D)
                      ∧ Forall (λ d, d ∈ name <$> pkgs) D)
         pkgs →
  ∃ st,
    for_each pkgs add_meson_package [] = (st, Ok tt)
    ∧ Forall (λ b, Forall (λ x, x ∈ defined st) (references b)) (builds st).
Proof.
  intros Hgood.
  destruct (for_each_packages (name <$> pkgs) pkgs [] Hgood)
    as (new & Hrun & Hstamps & Hrefs).
  exists new. split; [exact Hrun|].
  eapply Forall_impl; [exact Hrefs|]. intros b Hb.
  eapply Forall_impl; [exact Hb|]. intros x [Hx|Hx]; [exact Hx|].
  apply list_elem_of_fmap in Hx as (n & -> & Hn).
  apply list_elem_of_fmap in Hn as (p & -> & Hp). by apply Hstamps.
Qed.

Lemma packages_graph_closed_witness :
  ∃ st,
    for_each [app; libshield] add_meson_package [] = (st, Ok tt)
    ∧ Forall (λ b, Forall (λ x, x ∈ defined st) (references b)) (builds st).
Proof.
  apply (packages_graph_closed [app; libshield]).
  repeat apply Forall_cons_2; [| |apply Forall_nil_2].
  - split; [by eexists|].
    split; [apply (bool_decide_unpack _); vm_compute; exact I|].
    exists ["libshield"]. split; [reflexivity|].
    apply Forall_cons_2; [|apply Forall_nil_2]. cbn. elem_of_concrete.
  - split; [by eexists|].
    split; [apply (bool_decide_unpack _); vm_compute; exact I|].
    exists []. split; [reflexivity|]. apply Forall_nil_2.
Defined.

(** A dependency on a package that is not emitted leaves the configure edge
    waiting for a target no edge produces, in a call that returns (the
    writer can write the variables of the package). *)
Theorem missing_dependency_dangles (package : Package) (config_file : PyVal)
    (D : list string) (d : string) :
  _config package !! "config_file" = Some config_file →
  deps package = PList (PStr <$> D) →
  package_writable package →
  d ∈ D → d ≠ name package →
  ∃ st setup,
    add_meson_package package [] = (st, Ok tt)
    ∧ setup ∈ builds st
    ∧ install_stamp d ∈ references setup
    ∧ install_stamp d ∉ defined st.
Proof.
  intros Hcf Hdeps Hwritable Hd Hne.
  destruct (build_opts_ok package config_file Hcf) as [opts Hopts].
  assert (Hitems : py_iter (deps package) = Ok (PStr <$> D)) by (by rewrite Hdeps).
  destruct (add_meson_package_ok package opts _ [] Hopts Hitems Hwritable)
    as (setup & rest & Hrun & _ & Horder & _).
  destruct (add_meson_package_new package opts _ [] Hopts Hitems Hwritable)
    as (new & Hrun' & Hdef & _).
  exists new, setup. split; [exact Hrun'|].
  assert (Hnew : new = Newline :: BuildStmt setup :: rest).
  { rewrite Hrun in Hrun'. cbn [app] in Hrun'. by injection Hrun'. }
  split; [|split].
  - rewrite Hnew. cbn. apply list_elem_of_here.
  - unfold references. rewrite !elem_of_app. right. right.
    rewrite Horder, install_stamp_names. by apply list_elem_of_fmap_2.
  - rewrite Hdef. rewrite ?elem_of_cons, elem_of_nil. intros Hin.
    assert (Hnames : install_stamp d ≠ install_stamp (name package)).
    { unfold install_stamp. intros Heq. apply Hne.
      apply rev_chars_app in Heq. vm_compute reverse in Heq. cbn [app] in Heq.
      injection Heq as Heq. by apply rev_chars_inj. }
    unfold setup_phony, dyndep_file, introspect_json, compile_stamp,
      compile_phony, install_stamp, install_phony in Hin, Hnames.
    repeat (destruct Hin as [Hin|Hin]; [first [target_clash Hin | by apply Hnames]|]).
    exact Hin.
Qed.

Lemma missing_dependency_dangles_witness :
  ∃ st setup,
    add_meson_package app [] = (st, Ok tt)
    ∧ setup ∈ builds st
    ∧ install_stamp "libshield" ∈ references setup
    ∧ install_stamp "libshield" ∉ defined st.
Proof.
  apply (missing_dependency_dangles app (PStr "configs/app.config") ["libshield"]).
  - reflexivity.
  - reflexivity.
  - apply (bool_decide_unpack _). vm_compute. exact I.
  - apply list_elem_of_here.
  - discriminate.
Defined.

(** *** Edge and error behaviour of add_meson_package *)

(** A [deps] entry written as one string instead of a list of names is
    walked character by character: the one configure edge the call writes
    (whether or not writing a variable fails afterwards) waits for one
    install stamp per character of the string; the call returns when the
    writer can write the variables of the package. *)
Theorem deps_string_is_split (package : Package) (config_file : PyVal)
    (s : string) (st : list Stmt) :
  _config package !! "config_file" = Some config_file →
  _config package !! "deps" = Some (PStr s) →
  ∃ st' r setup,
    add_meson_package package st = (st', r)
    ∧ builds_of_rule "meson_setup" st'
      = (builds_of_rule "meson_setup" st ++ [setup])%list
    ∧ order_only setup
      = (λ c, install_stamp (String c EmptyString)) <$> list_ascii_of_string s
    ∧ (package_writable package → r = Ok tt).
Proof.
  intros Hcf Hdeps.
  destruct (build_opts_ok package config_file Hcf) as [opts Hopts].
  assert (Hitems : py_iter (deps package)
                   = Ok ((λ c, PStr (String c EmptyString))
                           <$> list_ascii_of_string s)).
  { unfold deps. by rewrite Hdeps. }
  destruct (add_meson_package_setup package opts _ st Hopts Hitems)
    as (r & setup & rest & Hrun & Hrule & Horder & Hnone).
  exists (st ++ Newline :: BuildStmt setup :: rest)%list, r, setup.
  split; [exact Hrun|]. split; [|split].
  - rewrite builds_of_rule_app. f_equal.
    change (Newline :: BuildStmt setup :: rest)
      with ([Newline; BuildStmt setup] ++ rest)%list.
    rewrite builds_of_rule_app, Hnone, app_nil_r.
    unfold builds_of_rule. simpl. rewrite filter_cons, Hrule.
    by rewrite decide_True.
  - rewrite Horder, <- list_fmap_compose. reflexivity.
  - intros Hwritable.
    destruct (add_meson_package_ok package opts _ st Hopts Hitems Hwritable)
      as (setup' & rest' & Hrun' & _).
    rewrite Hrun in Hrun'. by injection Hrun'.
Qed.

Lemma deps_string_is_split_witness :
  ∃ st' r setup,
    add_meson_package
      {| _name := "app";
         _config := <[ "deps" := PStr "ab" ]>
                      {[ "config_file" := PStr "app.config" ]} |} []
    = (st', r)
    ∧ builds_of_rule "meson_setup" st'
      = (builds_of_rule "meson_setup" [] ++ [setup])%list
    ∧ order_only setup
      = (λ c, install_stamp (String c EmptyString)) <$> list_ascii_of_string "ab"
    ∧ (package_writable
         {| _name := "app";
            _config := <[ "deps" := PStr "ab" ]>
                         {[ "config_file" := PStr "app.config" ]} |} →
       r = Ok tt).
Proof.
  apply (deps_string_is_split
           {| _name := "app";
              _config := <[ "deps" := PStr "ab" ]>
                           {[ "config_file" := PStr "app.config" ]} |}
           (PStr "app.config") "ab" []).
  - reflexivity.
  - reflexivity.
Defined.

(** Failures of [add_meson_package]: without a [config_file], or with a
    [deps] entry that cannot be walked, the call raises before any edge is
    written; the blank line that precedes the configure edge is already in
    the file. *)
Theorem add_meson_package_fails_early (package : Package) (st : list Stmt) :
  _config package !! "config_file" = None
  ∨ (is_Some (_config package !! "config_file")
     ∧ _config package !! "deps" = Some PNone) →
  ∃ e, add_meson_package package st = ((st ++ [Newline])%list, Raise e)
       ∧ builds (st ++ [Newline]) = builds st
       ∧ (_config package !! "config_file" = None → e = KeyError "config_file").
Proof.
  intros [Hcf|[[cf Hcf] Hdeps]].
  - exists (KeyError "config_file").
    split; [by apply add_meson_package_no_config_file|].
    split; [by rewrite builds_app, app_nil_r|done].
  - exists TypeError. split; [|split].
    + unfold add_meson_package, mbind, prog_bind, lift, newline.
      unfold build_opts, deps. rewrite Hcf, Hdeps. reflexivity.
    + by rewrite builds_app, app_nil_r.
    + intros Hnone. by rewrite Hnone in Hcf.
Qed.

Lemma add_meson_package_fails_early_witness :
  ∃ e, add_meson_package {| _name := "app"; _config := ∅ |} []
       = (([] ++ [Newline])%list, Raise e)
       ∧ builds ([] ++ [Newline]) = builds []
       ∧ (_config {| _name := "app"; _config := ∅ |} !! "config_file" = None →
          e = KeyError "config_file").
Proof.
  apply (add_meson_package_fails_early {| _name := "app"; _config := ∅ |} []).
  left. reflexivity.
Defined.

(** *** The declaration and the edges it extends *)



(** *** Linker script and relink edges of one image *)

(** For an image built from a package of another name, the linker-script
    edge waits for the install stamp of that package, while the relink edge
    reads the package's introspection file but waits for the install stamp
    of the image name, not of the package. *)
Theorem relink_waits_for_image_name (resolve : Path → Path) (name pn : string)
    (ld_output template layout orig_elf output linkerscript : Path)
    (st : list Stmt) :
  name ≠ "dummy" → pn ≠ EmptyString → pn ≠ name →
  ∃ ld relink,
    (add_gen_ldscript_target resolve name ld_output template layout (Some pn);;
     add_relink_meson_target resolve name orig_elf output linkerscript (Some pn)) st
    = ((st ++ [Newline; BuildStmt ld; Newline; BuildStmt relink])%list, Ok tt)
    ∧ implicit ld = ["libshield_install.stamp"; install_stamp pn]
    ∧ inputs relink = [str (resolve linkerscript); introspect_json pn]
    ∧ implicit relink = [install_stamp name]
    ∧ install_stamp pn ∉ implicit relink.
Proof.
  intros Hdummy Hpn Hne. eexists _, _. split; [|split; [|split; [|split]]].
  - unfold add_gen_ldscript_target, add_relink_meson_target,
      mbind, prog_bind, newline, build.
    rewrite <- !(assoc_L (++)). reflexivity.
  - cbn. rewrite decide_True by done. cbn. by destruct pn.
  - cbn. by destruct pn.
  - reflexivity.
  - cbn. intros Hin. apply list_elem_of_singleton in Hin.
    unfold install_stamp in Hin. apply Hne.
    apply rev_chars_app in Hin. vm_compute reverse in Hin. cbn [app] in Hin.
    injection Hin as Hin. by apply rev_chars_inj.
Qed.

Lemma relink_waits_for_image_name_witness :
  ∃ ld relink,
    (add_gen_ldscript_target (λ p, p) "shell" (parse "shell.lds")
       (parse "shell.lds.in") (parse "layout.json") (Some "libshell");;
     add_relink_meson_target (λ p, p) "shell" (parse "shell.elf")
       (parse "shell_relinked.elf") (parse "shell.lds") (Some "libshell")) []
    = (([] ++ [Newline; BuildStmt ld; Newline; BuildStmt relink])%list, Ok tt)
    ∧ implicit ld = ["libshield_install.stamp"; install_stamp "libshell"]
    ∧ inputs relink = [str (parse "shell.lds"); introspect_json "libshell"]
    ∧ implicit relink = [install_stamp "shell"]
    ∧ install_stamp "libshell" ∉ implicit relink.
Proof.
  apply (relink_waits_for_image_name (λ p, p) "shell" "libshell"
           (parse "shell.lds") (parse "shell.lds.in") (parse "layout.json")
           (parse "shell.elf") (parse "shell_relinked.elf") (parse "shell.lds")
           []); discriminate.
Defined.

End NinjaExtra.

(** ** ninja_backend.py: rules and the edges that use them *)

Module NinjaRulesProofs.
Import Pathlib NinjaBackend NinjaBackendProofs NinjaTargets NinjaRules.
Local Open Scope string_scope.

Ltac in_list :=
  repeat first [ apply list_elem_of_here | apply list_elem_of_further ].

Ltac rules_of_new :=
  cbn [builds omap list_omap app];
  repeat apply Forall_cons_2; try apply Forall_nil_2; cbn [rule]; in_list.

(** The rule names the edge-emitting methods use. *)
Lemma call_rules (resolve : Path → Path) (stem : Path → string) (c : Call)
    (st : list Stmt) :
  ∃ new,
    (call resolve stem c st).1 = (st ++ new)%list
    ∧ Forall (λ b, rule b ∈ ["phony"; "outpost_reconfigure"; "internal";
                             "meson_setup"; "meson_package_dyndep";
                             "meson_compile"; "meson_install"])
             (builds new).
Proof.
  destruct c; cbn [call].
  10: { unfold add_meson_package, mbind, prog_bind, lift, newline, build.
        destruct (build_opts package) as [opts|e];
          [destruct (py_iter (deps package)) as [items|e]|];
          expose_writes; split_writes;
          (eexists; split;
           [cbn [fst]; rewrite <- ?(assoc_L (++)); reflexivity|rules_of_new]). }
  all: eexists; split;
    [unfold add_outpost_targets, add_internal_gen_memory_layout_target,
       add_internal_gen_dummy_memory_layout_target,
       add_gen_ldscript_target, add_relink_meson_target,
       add_objcopy_rule, add_gen_metadata_rule, add_srec_cat_rule,
       add_fixup_kernel_rule, mbind, prog_bind, newline, build, mret,
       prog_ret; cbn [fst]; rewrite <- ?(assoc_L (++)); reflexivity
    |rules_of_new].
Qed.

Lemma for_each_call_rules (resolve : Path → Path) (stem : Path → string)
    (calls : list Call) (st : list Stmt) :
  ∃ new,
    (for_each calls (call resolve stem) st).1 = (st ++ new)%list
    ∧ Forall (λ b, rule b ∈ ["phony"; "outpost_reconfigure"; "internal";
                             "meson_setup"; "meson_package_dyndep";
                             "meson_compile"; "meson_install"])
             (builds new).
Proof.
  revert st. induction calls as [|c calls IH]; intros st.
  - exists []. split; [by rewrite app_nil_r|apply Forall_nil_2].
  - destruct (call_rules resolve stem c st) as (new1 & Hrun1 & Hrules1).
    cbn [for_each]. unfold mbind at 1, prog_bind at 1.
    destruct (call resolve stem c st) as [st1 [[]|e]] eqn:Hcall;
      cbn [fst] in Hrun1; subst st1.
    + destruct (IH (st ++ new1)%list) as (new2 & Hrun2 & Hrules2).
      exists (new1 ++ new2)%list. split; [by rewrite Hrun2, (assoc_L (++))|].
      rewrite builds_app. by apply Forall_app_2.
    + by exists new1.
Qed.

Lemma add_all_rules_names (find_program : string → result string)
    (outpost meson : string) :
  find_program "outpost" = Ok outpost →
  find_program "meson" = Ok meson →
  ∃ decls,
    add_all_rules find_program [] = (decls, Ok tt)
    ∧ rule_name <$> declared_rules decls
      = ["outpost_reconfigure"; "capture_out"; "gen_ldscript";
         "gen_memory_layout"; "gen_task_metadata_bin"; "kernel_fixup";
         "meson_package_dyndep"; "objcopy"; "relink_elf"; "srec_cat";
         "internal"; "meson_setup"; "meson_compile"; "meson_install"].
Proof.
  intros Ho Hm. eexists. split.
  { unfold add_all_rules, add_outpost_rules, add_outpost_internals_rules,
      add_meson_rules, _add_outpost_internal_rule, internal_commands.
    cbn [for_each]. unfold mbind, prog_bind, lift, emit, mret, prog_ret.
    rewrite Ho, Hm. cbn [app fst snd]. reflexivity. }
  reflexivity.
Qed.

(** The rule table: when the [outpost] and [meson] programs are found, the
    three rule-emitting methods declare fourteen rules with pairwise
    distinct names, all of them in the [console] pool, and only the
    reconfiguration rule is a generator. *)
Theorem rule_table (find_program : string → result string)
    (outpost meson : string) :
  find_program "outpost" = Ok outpost →
  find_program "meson" = Ok meson →
  ∃ decls,
    add_all_rules find_program [] = (decls, Ok tt)
    ∧ rule_name <$> declared_rules decls
      = ["outpost_reconfigure"; "capture_out"; "gen_ldscript";
         "gen_memory_layout"; "gen_task_metadata_bin"; "kernel_fixup";
         "meson_package_dyndep"; "objcopy"; "relink_elf"; "srec_cat";
         "internal"; "meson_setup"; "meson_compile"; "meson_install"]
    ∧ NoDup (rule_name <$> declared_rules decls)
    ∧ Forall (λ r, pool r = "console") (declared_rules decls)
    ∧ Forall (λ r, generator r = true ↔ rule_name r = "outpost_reconfigure")
             (declared_rules decls)
    ∧ (DVariable "outpost" outpost ∈ decls)
    ∧ (DVariable "mesonbuild" meson ∈ decls).
Proof.
  intros Ho Hm. eexists. split.
  { unfold add_all_rules, add_outpost_rules, add_outpost_internals_rules,
      add_meson_rules, _add_outpost_internal_rule, internal_commands.
    cbn [for_each]. unfold mbind, prog_bind, lift, emit, mret, prog_ret.
    rewrite Ho, Hm. cbn [app fst snd]. reflexivity. }
  split; [reflexivity|]. split; [|split; [|split; [|split]]].
  - cbn. apply (bool_decide_unpack _). vm_compute. exact I.
  - cbn. repeat apply Forall_cons_2; try apply Forall_nil_2; reflexivity.
  - cbn. repeat apply Forall_cons_2; try apply Forall_nil_2; cbn;
      split; (done || discriminate).
  - in_list.
  - in_list.
Qed.

Lemma rule_table_witness :
  ∃ decls,
    add_all_rules (λ prog, Ok ("/usr/bin/" ++ prog)) [] = (decls, Ok tt)
    ∧ rule_name <$> declared_rules decls
      = ["outpost_reconfigure"; "capture_out"; "gen_ldscript";
         "gen_memory_layout"; "gen_task_metadata_bin"; "kernel_fixup";
         "meson_package_dyndep"; "objcopy"; "relink_elf"; "srec_cat";
         "internal"; "meson_setup"; "meson_compile"; "meson_install"]
    ∧ NoDup (rule_name <$> declared_rules decls)
    ∧ Forall (λ r, pool r = "console") (declared_rules decls)
    ∧ Forall (λ r, generator r = true ↔ rule_name r = "outpost_reconfigure")
             (declared_rules decls)
    ∧ (DVariable "outpost" "/usr/bin/outpost" ∈ decls)
    ∧ (DVariable "mesonbuild" "/usr/bin/meson" ∈ decls).
Proof.
  apply (rule_table (λ prog, Ok ("/usr/bin/" ++ prog))
           "/usr/bin/outpost" "/usr/bin/meson"); reflexivity.
Defined.

(** Every edge written by any sequence of calls of the edge-emitting
    methods, also one cut short by a failing call, runs a rule that the rule
    table declares or the built-in [phony]; of the nine rules declared for
    the internal commands only [meson_package_dyndep] is ever used. *)
Theorem edges_use_declared_rules (find_program : string → result string)
    (outpost meson : string) (resolve : Path → Path) (stem : Path → string)
    (calls : list Call) :
  find_program "outpost" = Ok outpost →
  find_program "meson" = Ok meson →
  let decls := (add_all_rules find_program []).1 in
  let st := (for_each calls (call resolve stem) []).1 in
  Forall (λ b, (rule b = "phony" ∨ rule b ∈ rule_name <$> declared_rules decls)
               ∧ rule b ∉ ["capture_out"; "gen_ldscript"; "gen_memory_layout";
                           "gen_task_metadata_bin"; "kernel_fixup"; "objcopy";
                           "relink_elf"; "srec_cat"])
         (builds st).
Proof.
  intros Ho Hm decls st.
  destruct (add_all_rules_names find_program outpost meson Ho Hm)
    as (decls' & Hdecls & Hnames).
  assert (decls = decls') as -> by (unfold decls; by rewrite Hdecls).
  destruct (for_each_call_rules resolve stem calls []) as (new & Hrun & Hrules).
  unfold st. rewrite Hrun. cbn [app].
  eapply Forall_impl; [exact Hrules|]. intros b Hb. rewrite Hnames.
  rewrite ?elem_of_cons, elem_of_nil in Hb.
  repeat (destruct Hb as [Hb|Hb];
          [rewrite Hb; split;
           [first [by left | right; in_list]
           |rewrite ?elem_of_cons, elem_of_nil; intros Hin;
            repeat (destruct Hin as [Hin|Hin]; [discriminate Hin|]); exact Hin]|]).
  destruct Hb.
Qed.

Lemma edges_use_declared_rules_witness :
  let decls := (add_all_rules (λ prog, Ok ("/usr/bin/" ++ prog)) []).1 in
  let st := (for_each [CallMesonPackage libshield; CallMesonPackage app;
                       CallDummyMemoryLayout (parse "dummy_layout.json");
                       CallLdscript "app" (parse "app.lds") (parse "app.lds.in")
                         (parse "layout.json") None]
               (call (λ p, p) (λ p, str p)) []).1 in
  Forall (λ b, (rule b = "phony" ∨ rule b ∈ rule_name <$> declared_rules decls)
               ∧ rule b ∉ ["capture_out"; "gen_ldscript"; "gen_memory_layout";
                           "gen_task_metadata_bin"; "kernel_fixup"; "objcopy";
                           "relink_elf"; "srec_cat"])
         (builds st).
Proof.
  apply (edges_use_declared_rules (λ prog, Ok ("/usr/bin/" ++ prog))
           "/usr/bin/outpost" "/usr/bin/meson" (λ p, p) (λ p, str p)
           [CallMesonPackage libshield; CallMesonPackage app;
            CallDummyMemoryLayout (parse "dummy_layout.json");
            CallLdscript "app" (parse "app.lds") (parse "app.lds.in")
              (parse "layout.json") None]); reflexivity.
Defined.

(** The rules and variables declared by the five declaring methods. *)
Lemma declarations_log (find_program : string → result string)
    (resolve_strict : Path → result Path) (resolve : Path → Path)
    (outpost meson : string) (dts resolved crossfile : Path)
    (dts_include_dirs : list Path) :
  find_program "outpost" = Ok outpost →
  find_program "meson" = Ok meson →
  resolve_strict dts = Ok resolved →
  ∃ decls,
    (add_all_rules find_program;;
     add_outpost_dts resolve_strict resolve dts dts_include_dirs;;
     add_outpost_cross_file crossfile) [] = (decls, Ok tt)
    ∧ declared_variables decls
      = ["outpost"; "mesonbuild"; "dts"; "dtsincdir"; "crossfile"]
    ∧ declared_rules decls = declared_rules (add_all_rules (λ _, Ok EmptyString) []).1.
Proof.
  intros Ho Hm Hdts. eexists. split.
  { unfold add_all_rules, add_outpost_rules, add_outpost_internals_rules,
      add_meson_rules, _add_outpost_internal_rule, internal_commands,
      add_outpost_dts, add_outpost_cross_file.
    cbn [for_each]. unfold mbind, prog_bind, lift, emit, mret, prog_ret.
    rewrite Ho, Hm, Hdts. cbn [app fst snd]. reflexivity. }
  split; reflexivity.
Qed.

(** *** Variables of the rules and variables of the edges *)

Lemma unbound_allowed (decls : list Decl) (b : Build) (allowed : list string) :
  Forall (λ r, rule_name r = rule b →
               Forall (λ v, v ∈ ["in"; "out"] ∨ v ∈ declared_variables decls
                            ∨ v ∈ allowed ∨ v ∈ bound_variables b)
                      (dollar_vars (command r) ++ dollar_vars (description r)))
         (declared_rules decls) →
  Forall (λ v, v ∈ allowed) (unbound_variables decls b).
Proof.
  intros Hall. apply Forall_forall. intros v Hv.
  unfold unbound_variables in Hv.
  apply list_elem_of_bind in Hv as (r & Hv & Hr).
  apply list_elem_of_filter in Hr as [Hname Hr].
  apply list_elem_of_filter in Hv as [(Hio & Hdecl & Hbound) Hv].
  rewrite Forall_forall in Hall. specialize (Hall r Hr Hname).
  rewrite Forall_forall in Hall. by destruct (Hall v Hv) as [?|[?|[?|?]]].
Qed.

Lemma unbound_intro (decls : list Decl) (b : Build) (r : RuleDecl) (v : string) :
  r ∈ declared_rules decls → rule_name r = rule b →
  v ∈ (dollar_vars (command r) ++ dollar_vars (description r))%list →
  v ∉ ["in"; "out"] → v ∉ declared_variables decls → v ∉ bound_variables b →
  v ∈ unbound_variables decls b.
Proof.
  intros Hr Hname Hv Hio Hdecl Hbound. unfold unbound_variables.
  apply list_elem_of_bind. exists r. split.
  - apply list_elem_of_filter. by split.
  - apply list_elem_of_filter. by split.
Qed.

Lemma unbound_undeclared_rule (decls : list Decl) (b : Build) :
  rule b ∉ rule_name <$> declared_rules decls → unbound_variables decls b = [].
Proof.
  intros Hrule. unfold unbound_variables.
  induction (declared_rules decls) as [|r l IH]; [reflexivity|].
  rewrite fmap_cons, not_elem_of_cons in Hrule. destruct Hrule as [Hne Hrule].
  rewrite filter_cons, decide_False by (intros Heq; by apply Hne).
  by apply IH.
Qed.

Lemma bound_intro (b : Build) key text :
  (key, PStr text) ∈ variables b → key ∈ bound_variables b.
Proof.
  intros Hin. unfold bound_variables. apply list_elem_of_omap.
  by exists (key, PStr text).
Qed.

Lemma bound_elim (b : Build) key :
  key ∈ bound_variables b → ∃ val, (key, val) ∈ variables b.
Proof.
  unfold bound_variables. intros Hin.
  apply list_elem_of_omap in Hin as ([k v] & Hin & Hkey). cbn [fst snd] in Hkey.
  exists v. destruct v; try discriminate Hkey; by injection Hkey as <-.
Qed.

Ltac no_unbound :=
  cbn [builds omap list_omap app];
  repeat apply Forall_cons_2; try apply Forall_nil_2; vm_compute; reflexivity.

(** The methods other than [add_meson_package] bind, with strings, every
    variable of the rule of each edge they write. *)
Lemma other_calls_bound (decls : list Decl) (resolve : Path → Path)
    (stem : Path → string) (c : Call) (st : list Stmt) :
  declared_variables decls
  = ["outpost"; "mesonbuild"; "dts"; "dtsincdir"; "crossfile"] →
  declared_rules decls = declared_rules (add_all_rules (λ _, Ok EmptyString) []).1 →
  (∀ package, c ≠ CallMesonPackage package) →
  ∃ new,
    call resolve stem c st = ((st ++ new)%list, Ok tt)
    ∧ Forall (λ b, unbound_variables decls b = []) (builds new).
Proof.
  intros Hvars Hrules Hother. unfold unbound_variables. rewrite Hvars, Hrules.
  destruct c; cbn [call].
  10: by destruct (Hother package).
  all: eexists; split;
    [unfold add_outpost_targets, add_internal_gen_memory_layout_target,
       add_internal_gen_dummy_memory_layout_target,
       add_gen_ldscript_target, add_relink_meson_target,
       add_objcopy_rule, add_gen_metadata_rule, add_srec_cat_rule,
       add_fixup_kernel_rule, mbind, prog_bind, newline, build, mret,
       prog_ret; cbn [write_variables variable_text variables fst snd];
     rewrite <- ?(assoc_L (++)); reflexivity
    |no_unbound].
Qed.

Ltac not_in_list :=
  let Hin := fresh "Hin" in
  intros Hin; rewrite ?elem_of_cons, elem_of_nil in Hin;
  repeat (destruct Hin as [Hin|Hin]; [discriminate Hin|]); exact Hin.

(** One variable of the rule of a package edge: bound by the executor, by
    the top level of the file, or by the edge, unless it is one of the three
    directories. *)
Ltac package_variable Hopts :=
  first [ solve [left; in_list]
        | solve [right; left; in_list]
        | solve [right; right; left; in_list]
        | right; right; right; eapply bound_intro; cbn [variables];
          eapply written_intro;
          [eassumption|in_list|first [reflexivity | exact Hopts]] ].

Ltac package_edge Hvars Hrules Hopts :=
  split;
  [apply unbound_allowed; rewrite Hrules, Hvars;
   let l := eval vm_compute in
              (declared_rules (add_all_rules (λ _, Ok EmptyString) []).1) in
   change (declared_rules (add_all_rules (λ _, Ok EmptyString) []).1) with l;
   repeat apply Forall_cons_2; try apply Forall_nil_2;
   cbn [rule_name rule]; intros Hname; try discriminate Hname;
   cbn [command description];
   match goal with
   | |- Forall _ ?vars =>
       let vars' := eval vm_compute in vars in change vars with vars'
   end;
   repeat apply Forall_cons_2; try apply Forall_nil_2; package_variable Hopts
  |cbn [rule]; intros Hin; exfalso; revert Hin; not_in_list].

(** The edges of a package: each binds every variable of its rule, except
    that the three directories are bound only when the configuration of the
    package gives them; without [build_dir] the configure edge leaves
    [builddir] unbound. *)
Lemma package_bound (decls : list Decl) (package : Package)
    (st : list Stmt) :
  declared_variables decls
  = ["outpost"; "mesonbuild"; "dts"; "dtsincdir"; "crossfile"] →
  declared_rules decls = declared_rules (add_all_rules (λ _, Ok EmptyString) []).1 →
  (add_meson_package package st).2 = Ok tt →
  ∃ new,
    add_meson_package package st = ((st ++ new)%list, Ok tt)
    ∧ Forall (λ b, Forall (λ v, v ∈ ["builddir"; "sourcedir"; "stagingdir"])
                          (unbound_variables decls b)
                   ∧ (rule b ∈ ["phony"; "outpost_reconfigure"; "internal"] →
                      unbound_variables decls b = []))
             (builds new)
    ∧ (_config package !! "build_dir" = None →
       ∃ b, b ∈ builds new ∧ rule b = "meson_setup"
            ∧ ("name", PStr (name package)) ∈ variables b
            ∧ "builddir" ∈ unbound_variables decls b).
Proof.
  intros Hvars Hrules Hok.
  destruct (add_meson_package_inv package st (add_meson_package package st).1)
    as (opts & items & Hopts & Hitems & H1 & H2 & H3 & H4).
  { destruct (add_meson_package package st) as [st' r]. cbn [snd] in Hok.
    by rewrite Hok. }
  destruct (build_opts_text package opts _ "opts" Hopts H1) as [text Htext];
    [in_list|].
  clear Hok. unfold add_meson_package.
  unfold mbind, prog_bind, lift, newline, build. rewrite Hopts, Hitems.
  expose_writes. rewrite H1, H2, H3, H4. cbv beta iota. cbn [fst snd].
  eexists. split; [rewrite <- !(assoc_L (++)); reflexivity|].
  assert (Hphony : ∀ b, rule b = "phony" → unbound_variables decls b = []).
  { intros b Hb. apply unbound_undeclared_rule. rewrite Hrules, Hb.
    vm_compute fmap. not_in_list. }
  split.
  - cbn [builds omap list_omap app].
    repeat apply Forall_cons_2; try apply Forall_nil_2.
    2, 5, 7: rewrite Hphony by reflexivity; split; [apply Forall_nil_2|done].
    all: package_edge Hvars Hrules Htext.
  - intros Hnone. eexists.
    split; [eapply (list_elem_of_lookup_2 _ 0); reflexivity|].
    cbn [rule variables]. split; [reflexivity|]. split.
    + eapply written_intro; [exact H1|in_list|reflexivity].
    + eapply unbound_intro.
      * rewrite Hrules. eapply (list_elem_of_lookup_2 _ 11). reflexivity.
      * reflexivity.
      * cbn [command description].
        match goal with
        | |- _ ∈ ?vars =>
            let vars' := eval vm_compute in vars in change vars with vars'
        end.
        in_list.
      * not_in_list.
      * rewrite Hvars. not_in_list.
      * intros Hin. apply bound_elim in Hin as [val Hin]. cbn [variables] in Hin.
        apply written_elim in Hin as (val' & t & Hin & Ht & _).
        rewrite ?elem_of_cons, elem_of_nil in Hin.
        repeat (destruct Hin as [Hin|Hin]; try discriminate Hin);
          try (exfalso; exact Hin).
        injection Hin as ->. unfold __getattr__ in Ht. rewrite Hnone in Ht.
        discriminate Ht.
Qed.

Lemma call_bound (decls : list Decl) (resolve : Path → Path)
    (stem : Path → string) (c : Call) (st st' : list Stmt) :
  declared_variables decls
  = ["outpost"; "mesonbuild"; "dts"; "dtsincdir"; "crossfile"] →
  declared_rules decls = declared_rules (add_all_rules (λ _, Ok EmptyString) []).1 →
  call resolve stem c st = (st', Ok tt) →
  ∃ new,
    st' = (st ++ new)%list
    ∧ Forall (λ b, Forall (λ v, v ∈ ["builddir"; "sourcedir"; "stagingdir"])
                          (unbound_variables decls b)
                   ∧ (rule b ∈ ["phony"; "outpost_reconfigure"; "internal"] →
                      unbound_variables decls b = []))
             (builds new)
    ∧ (∀ package, c = CallMesonPackage package →
       _config package !! "build_dir" = None →
       ∃ b, b ∈ builds new ∧ rule b = "meson_setup"
            ∧ ("name", PStr (name package)) ∈ variables b
            ∧ "builddir" ∈ unbound_variables decls b).
Proof.
  intros Hvars Hrules Hrun.
  assert (Hcase : (∃ package, c = CallMesonPackage package)
                  ∨ ¬ (∃ package, c = CallMesonPackage package)).
  { destruct c; try (right; by intros [p Hp]). left. by eexists. }
  destruct Hcase as [[package ->]|Hother].
  - cbn [call] in Hrun.
    destruct (package_bound decls package st Hvars Hrules)
      as (new & Hrun' & Hb & Hdir); [by rewrite Hrun|].
    rewrite Hrun in Hrun'. injection Hrun' as ->.
    exists new. split; [reflexivity|]. split; [exact Hb|].
    by intros p [= <-].
  - destruct (other_calls_bound decls resolve stem c st Hvars Hrules)
      as (new & Hrun' & Hb).
    { intros package Hc. apply Hother. by exists package. }
    rewrite Hrun in Hrun'. injection Hrun' as ->.
    exists new. split; [reflexivity|]. split.
    + eapply Forall_impl; [exact Hb|]. intros b ->.
      split; [apply Forall_nil_2|done].
    + intros package Hc. destruct Hother. by exists package.
Qed.

Lemma for_each_call_bound (decls : list Decl) (resolve : Path → Path)
    (stem : Path → string) (calls : list Call) (st st' : list Stmt) :
  declared_variables decls
  = ["outpost"; "mesonbuild"; "dts"; "dtsincdir"; "crossfile"] →
  declared_rules decls = declared_rules (add_all_rules (λ _, Ok EmptyString) []).1 →
  for_each calls (call resolve stem) st = (st', Ok tt) →
  ∃ new,
    st' = (st ++ new)%list
    ∧ Forall (λ b, Forall (λ v, v ∈ ["builddir"; "sourcedir"; "stagingdir"])
                          (unbound_variables decls b)
                   ∧ (rule b ∈ ["phony"; "outpost_reconfigure"; "internal"] →
                      unbound_variables decls b = []))
             (builds new)
    ∧ (∀ package, CallMesonPackage package ∈ calls →
       _config package !! "build_dir" = None →
       ∃ b, b ∈ builds new ∧ rule b = "meson_setup"
            ∧ ("name", PStr (name package)) ∈ variables b
            ∧ "builddir" ∈ unbound_variables decls b).
Proof.
  intros Hvars Hrules. revert st.
  induction calls as [|c calls IH]; intros st Hrun.
  - injection Hrun as <-. exists []. split; [by rewrite app_nil_r|].
    split; [apply Forall_nil_2|]. intros package Hin. by apply elem_of_nil in Hin.
  - cbn [for_each] in Hrun. unfold mbind at 1, prog_bind at 1 in Hrun.
    destruct (call resolve stem c st) as [st1 [[]|e]] eqn:Hcall;
      [|discriminate Hrun].
    destruct (call_bound decls resolve stem c st st1 Hvars Hrules Hcall)
      as (new1 & -> & Hb1 & Hdir1).
    destruct (IH _ Hrun) as (new2 & -> & Hb2 & Hdir2).
    exists (new1 ++ new2)%list. split; [by rewrite (assoc_L (++))|].
    split; [rewrite builds_app; by apply Forall_app_2|].
    intros package Hin Hnone. rewrite builds_app.
    apply elem_of_cons in Hin as [<-|Hin].
    + destruct (Hdir1 package eq_refl Hnone) as (b & Hb & Hrest).
      exists b. split; [|exact Hrest]. apply elem_of_app. by left.
    + destruct (Hdir2 package Hin Hnone) as (b & Hb & Hrest).
      exists b. split; [|exact Hrest]. apply elem_of_app. by right.
Qed.

(** In a run of the edge-emitting methods that returns, each variable that
    the command or the description of the rule of an edge refers to is [in]
    or [out], or a top-level variable of the file ([outpost], [mesonbuild],
    [dts], [dtsincdir], [crossfile]), or a variable written under the edge,
    with three possible exceptions: [builddir], [sourcedir] and
    [stagingdir], which the writer does not write when their value is
    [None].  Edges of the rules [phony], [outpost_reconfigure] and
    [internal] have no such exception; the configure edge of a package
    whose configuration has no [build_dir] does leave [builddir] unbound. *)
Theorem edges_bind_rule_variables (find_program : string → result string)
    (resolve_strict : Path → result Path) (resolve : Path → Path)
    (stem : Path → string) (outpost meson : string)
    (dts resolved crossfile : Path) (dts_include_dirs : list Path)
    (calls : list Call) :
  find_program "outpost" = Ok outpost →
  find_program "meson" = Ok meson →
  resolve_strict dts = Ok resolved →
  let decls :=
    ((add_all_rules find_program;;
      add_outpost_dts resolve_strict resolve dts dts_include_dirs;;
      add_outpost_cross_file crossfile) []).1 in
  let run := for_each calls (call resolve stem) [] in
  run.2 = Ok tt →
  Forall (λ b, Forall (λ v, v ∈ ["builddir"; "sourcedir"; "stagingdir"])
                      (unbound_variables decls b)
               ∧ (rule b ∈ ["phony"; "outpost_reconfigure"; "internal"] →
                  unbound_variables decls b = []))
         (builds run.1)
  ∧ (∀ package, CallMesonPackage package ∈ calls →
     _config package !! "build_dir" = None →
     ∃ b, b ∈ builds run.1 ∧ rule b = "meson_setup"
          ∧ ("name", PStr (name package)) ∈ variables b
          ∧ "builddir" ∈ unbound_variables decls b).
Proof.
  intros Ho Hm Hdts decls run Hok.
  destruct (declarations_log find_program resolve_strict resolve outpost meson
              dts resolved crossfile dts_include_dirs Ho Hm Hdts)
    as (decls' & Hdecls & Hvars & Hrules).
  assert (decls = decls') as -> by (unfold decls; by rewrite Hdecls).
  destruct run as [st r] eqn:Hrun. cbn [fst snd] in *. subst r.
  destruct (for_each_call_bound decls' resolve stem calls [] st Hvars Hrules Hrun)
    as (new & -> & Hb & Hdir).
  by split.
Qed.

Lemma edges_bind_rule_variables_witness :
  let calls := [CallMesonPackage libshield; CallMesonPackage app;
                CallOutpostTargets
                  {| config_full_path := parse "project.toml";
                     save_full_path := parse ".outpost.save";
                     project_dir := parse "." |};
                CallSrecCat (parse "kernel.hex") (parse "idle.hex")
                  [parse "app.hex"] (parse "firmware.hex")] in
  let decls :=
    ((add_all_rules (λ prog, Ok ("/usr/bin/" ++ prog));;
      add_outpost_dts (λ p, Ok p) (λ p, p) (parse "board.dts") [parse "dts"];;
      add_outpost_cross_file (parse "cm33-none-eabi-gcc.ini")) []).1 in
  let run := for_each calls (call (λ p, p) (λ p, str p)) [] in
  Forall (λ b, Forall (λ v, v ∈ ["builddir"; "sourcedir"; "stagingdir"])
                      (unbound_variables decls b)
               ∧ (rule b ∈ ["phony"; "outpost_reconfigure"; "internal"] →
                  unbound_variables decls b = []))
         (builds run.1)
  ∧ (∀ package, CallMesonPackage package ∈ calls →
     _config package !! "build_dir" = None →
     ∃ b, b ∈ builds run.1 ∧ rule b = "meson_setup"
          ∧ ("name", PStr (name package)) ∈ variables b
          ∧ "builddir" ∈ unbound_variables decls b).
Proof.
  apply (edges_bind_rule_variables (λ prog, Ok ("/usr/bin/" ++ prog))
           (λ p, Ok p) (λ p, p) (λ p, str p)
           "/usr/bin/outpost" "/usr/bin/meson"
           (parse "board.dts") (parse "board.dts")
           (parse "cm33-none-eabi-gcc.ini") [parse "dts"]
           [CallMesonPackage libshield; CallMesonPackage app;
            CallOutpostTargets
              {| config_full_path := parse "project.toml";
                 save_full_path := parse ".outpost.save";
                 project_dir := parse "." |};
            CallSrecCat (parse "kernel.hex") (parse "idle.hex")
              [parse "app.hex"] (parse "firmware.hex")]); reflexivity.
Defined.

End NinjaRulesProofs.
